(** * Plinko HIGH-risk theoretical RTP calculator

    A shallow embedding of [apps/backend/calculate_plinko_rtp.py] together
    with the parts of the Python runtime the script relies on:

    - [math.comb] on Python integers;
    - the [decimal] module at the context the script installs
      ([getcontext().prec = 50], every other field at its default:
      ROUND_HALF_EVEN, Emin = -999999, Emax = 999999, clamp = 0, traps on
      InvalidOperation, DivisionByZero and Overflow);
    - [float(Decimal)] and the binary64 comparisons of the report.

    Decimals are sign / coefficient / exponent triples as in the library,
    exceptions are an explicit error type, and [print] is a trace of report
    lines. *)

From Stdlib Require Import ZArith NArith QArith Qabs Qpower Lia Lqa List Bool.
From Stdlib Require Import Floats.SpecFloat.
From Stdlib Require Import Sorting.Sorted Sorting.Permutation.
Import ListNotations.

Local Open Scope Z_scope.

(* ===================================================================== *)
(** ** Python exceptions and the error monad *)
(* ===================================================================== *)

Inductive exn : Type :=
| ValueError          (* math.comb on a negative argument *)
| KeyError            (* dict lookup on a missing key *)
| InvalidOperation    (* decimal: 0 ** 0, 0 * Infinity, ... *)
| DivisionByZero      (* decimal: x / 0 *)
| Overflow.           (* decimal: adjusted exponent above Emax *)

Inductive result (A : Type) : Type :=
| Ok (a : A)
| Raise (e : exn).

Arguments Ok {A} a.
Arguments Raise {A} e.

Definition bind {A B : Type} (r : result A) (f : A -> result B) : result B :=
  match r with
  | Ok a => f a
  | Raise e => Raise e
  end.

Declare Scope py_scope.
Delimit Scope py_scope with py.
Notation "x <- c1 ;; c2" := (bind c1 (fun x => c2))
  (at level 61, c1 at next level, right associativity) : py_scope.

(* ===================================================================== *)
(** ** math.comb *)
(* ===================================================================== *)

(** Pascal's triangle; the reference the multiplicative algorithm is
    checked against. *)
Fixpoint binom (n k : nat) : N :=
  match k with
  | O => 1%N
  | S k' =>
      match n with
      | O => 0%N
      | S n' => (binom n' k' + binom n' k)%N
      end
  end.

(** [comb_mul n k] is C(n, k) for 0 <= k <= n, by the multiplicative
    recurrence C(n, j+1) = C(n, j) * (n - j) / (j + 1); every division is
    exact. *)
Fixpoint comb_mul (n : N) (k : nat) : N :=
  match k with
  | O => 1%N
  | S j => (comb_mul n j * (n - N.of_nat j) / N.of_nat (S j))%N
  end.

(** [math.comb(n, k)]: ValueError on a negative argument, 0 when k > n. *)
Definition comb (n k : Z) : result Z :=
  if (n <? 0) || (k <? 0) then Raise ValueError
  else if n <? k then Ok 0
  else Ok (Z.of_N (comb_mul (Z.to_N n) (Z.to_nat k))).

(* ===================================================================== *)
(** ** The decimal module *)
(* ===================================================================== *)

Module Dec.

(** A decimal number: finite (sign, coefficient, exponent), value
    (-1)^sign * coeff * 10^exp, or a signed infinity.  NaNs are left out:
    with InvalidOperation trapped no operation of the script produces one. *)
Inductive Decimal : Type :=
| Finite (sign : bool) (coeff : N) (exp : Z)
| Infinity (sign : bool).

Record Context : Type := mkContext {
  prec : Z;
  Emax : Z;
  Emin : Z
}.

Definition Etiny (ctx : Context) : Z := Emin ctx - prec ctx + 1.
Definition Etop (ctx : Context) : Z := Emax ctx - prec ctx + 1.

(** [getcontext()] after [getcontext().prec = 50]. *)
Definition getcontext : Context := mkContext 50 999999 (-999999).

(** 10^k as a coefficient, k >= 0. *)
Definition pow10 (k : Z) : N := (10 ^ Z.to_N k)%N.

(** Number of decimal digits, [len(str(c))]; "0" has one digit.  The
    loop compares [c] with 10, 100, ...; [p] is 10^d. *)
Fixpoint ndigits_fuel (fuel : nat) (p : N) (d : Z) (c : N) : Z :=
  match fuel with
  | O => d
  | S f => if (c <? p)%N then d else ndigits_fuel f (10 * p)%N (d + 1) c
  end.

Definition ndigits (c : N) : Z := ndigits_fuel (N.to_nat (N.size c)) 10 1 c.

(** ROUND_HALF_EVEN of c / 10^k to an integer, k >= 1. *)
Definition round_half_even (c : N) (k : Z) : N :=
  let q := (c / pow10 k)%N in
  let r := (c mod pow10 k)%N in
  let half := (5 * pow10 (k - 1))%N in
  if (half <? r)%N || ((r =? half)%N && N.odd q) then (q + 1)%N else q.

(** [Decimal._fix]: round a finite triple to the context. *)
Definition fix_finite (ctx : Context) (s : bool) (c : N) (e : Z)
  : result Decimal :=
  if (c =? 0)%N then
    Ok (Finite s 0 (Z.min (Z.max e (Etiny ctx)) (Emax ctx)))
  else
    let exp_min := ndigits c + e - prec ctx in
    if Etop ctx <? exp_min then Raise Overflow
    else
      let exp_min := Z.max exp_min (Etiny ctx) in
      if e <? exp_min then
        let digits := ndigits c + e - exp_min in
        let '(c, e) := if digits <? 0 then (1%N, exp_min - 1) else (c, e) in
        let coeff := round_half_even c (exp_min - e) in
        let '(coeff, exp_min) :=
          if prec ctx <? ndigits coeff
          then ((coeff / 10)%N, exp_min + 1) else (coeff, exp_min) in
        if Etop ctx <? exp_min then Raise Overflow
        else Ok (Finite s coeff exp_min)
      else Ok (Finite s c e).

Definition fix_ (ctx : Context) (d : Decimal) : result Decimal :=
  match d with
  | Finite s c e => fix_finite ctx s c e
  | Infinity s => Ok (Infinity s)
  end.

(** [Decimal(i)] for a Python int: exact, the context plays no role. *)
Definition of_int (i : Z) : Decimal := Finite (i <? 0) (Z.abs_N i) 0.

Definition one : Decimal := Finite false 1 0.

Definition is_zero (d : Decimal) : bool :=
  match d with
  | Finite _ c _ => (c =? 0)%N
  | Infinity _ => false
  end.

Definition copy_negate (d : Decimal) : Decimal :=
  match d with
  | Finite s c e => Finite (negb s) c e
  | Infinity s => Infinity (negb s)
  end.

(** [Decimal.__mul__] *)
Definition mul (ctx : Context) (a b : Decimal) : result Decimal :=
  match a, b with
  | Finite sa ca ea, Finite sb cb eb =>
      fix_finite ctx (xorb sa sb) (ca * cb)%N (ea + eb)
  | Infinity sa, Finite sb cb _ =>
      if (cb =? 0)%N then Raise InvalidOperation else Ok (Infinity (xorb sa sb))
  | Finite sa ca _, Infinity sb =>
      if (ca =? 0)%N then Raise InvalidOperation else Ok (Infinity (xorb sa sb))
  | Infinity sa, Infinity sb => Ok (Infinity (xorb sa sb))
  end.

(** Signed coefficient of a finite triple scaled to exponent [e]. *)
Definition scaled (s : bool) (c : N) (ec e : Z) : Z :=
  let m := Z.of_N (c * pow10 (ec - e))%N in
  if s then - m else m.

(** [Decimal.__add__] under ROUND_HALF_EVEN: the exact sum at the smaller
    exponent, then [_fix]. *)
Definition add (ctx : Context) (a b : Decimal) : result Decimal :=
  match a, b with
  | Finite sa ca ea, Finite sb cb eb =>
      let e := Z.min ea eb in
      if (ca =? 0)%N && (cb =? 0)%N then fix_finite ctx (sa && sb) 0 e
      else
        let v := scaled sa ca ea e + scaled sb cb eb e in
        if v =? 0 then fix_finite ctx false 0 e
        else fix_finite ctx (v <? 0) (Z.abs_N v) e
  | Infinity sa, Infinity sb =>
      if Bool.eqb sa sb then Ok a else Raise InvalidOperation
  | Infinity _, Finite _ _ _ => Ok a
  | Finite _ _ _, Infinity _ => Ok b
  end.

(** [Decimal.__sub__] *)
Definition sub (ctx : Context) (a b : Decimal) : result Decimal :=
  add ctx a (copy_negate b).

(** Strip trailing zeros of an exact quotient while the exponent is below
    the ideal one. *)
Fixpoint strip_zeros (fuel : nat) (q : N) (e ideal : Z) : N * Z :=
  match fuel with
  | O => (q, e)
  | S f =>
      if (e <? ideal) && ((q mod 10 =? 0)%N)
      then strip_zeros f (q / 10)%N (e + 1) ideal
      else (q, e)
  end.

(** [Decimal.__truediv__] *)
Definition div (ctx : Context) (a b : Decimal) : result Decimal :=
  match a, b with
  | Finite sa ca ea, Finite sb cb eb =>
      let s := xorb sa sb in
      if (cb =? 0)%N then
        if (ca =? 0)%N then Raise InvalidOperation else Raise DivisionByZero
      else if (ca =? 0)%N then fix_finite ctx s 0 (ea - eb)
      else
        let shift := ndigits cb - ndigits ca + prec ctx + 1 in
        let e := ea - eb - shift in
        let '(q, r) :=
          if 0 <=? shift
          then N.div_eucl (ca * pow10 shift) cb
          else N.div_eucl ca (cb * pow10 (- shift)) in
        if (r =? 0)%N then
          let '(q, e) := strip_zeros (N.to_nat (N.size q)) q e (ea - eb) in
          fix_finite ctx s q e
        else
          fix_finite ctx s (if (q mod 5 =? 0)%N then q + 1 else q)%N e
  | Infinity _, Infinity _ => Raise InvalidOperation
  | Infinity sa, Finite sb _ _ => Ok (Infinity (xorb sa sb))
  | Finite sa _ _, Infinity sb => Ok (Finite (xorb sa sb) 0 (Etiny ctx))
  end.

(** The square-and-multiply loop of the integer power, most significant
    bit of the exponent first; every product is rounded to [ctx]. *)
Fixpoint pow_uint (ctx : Context) (base : Decimal) (n : positive)
  : result Decimal :=
  match n with
  | xH => Ok base
  | xO m =>
      (r <- pow_uint ctx base m ;; mul ctx r r)%py
  | xI m =>
      (r <- pow_uint ctx base m ;;
       r2 <- mul ctx r r ;;
       mul ctx r2 base)%py
  end.

Definition set_sign (s : bool) (d : Decimal) : Decimal :=
  match d with
  | Finite _ c e => Finite s c e
  | Infinity _ => Infinity s
  end.

(** Is the magnitude exactly 1 (1, 1.0, 1.00, ...)? *)
Definition is_abs_one (c : N) (e : Z) : bool :=
  (e <=? 0) && (c =? pow10 (- e))%N.

(** [Decimal.__pow__] with a Python int exponent.  The working context of
    the loop carries [digits(|n|) + 2] extra digits (one more for a
    negative exponent, whose base is first inverted); the result is rounded
    once more to [ctx]. *)
Definition pow (ctx : Context) (base : Decimal) (n : Z) : result Decimal :=
  match base with
  | Finite s c e =>
      let rs := s && Z.odd n in
      if (c =? 0)%N then
        if n =? 0 then Raise InvalidOperation
        else if n <? 0 then Ok (Infinity rs)
        else Ok (Finite rs 0 0)
      else if n =? 0 then Ok (Finite false 1 0)
      else if is_abs_one c e then
        if n <? 0 then Ok (Finite rs 1 0)
        else
          let shift := Z.min (n * - e) (prec ctx - 1) in
          Ok (Finite rs (pow10 shift) (- shift))
      else
        let work := prec ctx + ndigits (Z.abs_N n) + 2 in
        match n with
        | Zpos m =>
            let wctx := mkContext work (Emax ctx) (Emin ctx) in
            (r <- pow_uint wctx base m ;; fix_ ctx (set_sign rs r))%py
        | Zneg m =>
            let wctx := mkContext (work + 1) (Emax ctx) (Emin ctx) in
            (tbase <- div wctx one base ;;
             r <- pow_uint wctx tbase m ;;
             fix_ ctx (set_sign rs r))%py
        | Z0 => Ok (Finite false 1 0)
        end
  | Infinity s =>
      let rs := s && Z.odd n in
      if n =? 0 then Ok (Finite false 1 0)
      else if n <? 0 then Ok (Finite rs 0 0)
      else Ok (Infinity rs)
  end.

(** Rational value of a decimal (0 for an infinity, which has none). *)
Definition value (d : Decimal) : Q :=
  match d with
  | Finite s c e =>
      let m := (inject_Z (Z.of_N c) * (10 # 1) ^ e)%Q in
      if s then (- m)%Q else m
  | Infinity _ => 0%Q
  end.

Definition is_finite (d : Decimal) : bool :=
  match d with
  | Finite _ _ _ => true
  | Infinity _ => false
  end.

Definition exponent (d : Decimal) : Z :=
  match d with
  | Finite _ _ e => e
  | Infinity _ => 0
  end.

Definition coefficient (d : Decimal) : N :=
  match d with
  | Finite _ c _ => c
  | Infinity _ => 0%N
  end.

(** 10^e as a rational. *)
Definition p10 (e : Z) : Q := ((10 # 1) ^ e)%Q.

(** Value of the unsigned triple (c, e). *)
Definition uval (c : N) (e : Z) : Q := (inject_Z (Z.of_N c) * p10 e)%Q.

(** A triple [_fix] leaves alone: a zero with its exponent in range, or at
    most [prec] digits at an exponent of at least Etiny and an adjusted
    exponent of at most Emax. *)
Definition canonical (ctx : Context) (c : N) (e : Z) : Prop :=
  if (c =? 0)%N then Etiny ctx <= e <= Emax ctx
  else ndigits c <= prec ctx /\ Etiny ctx <= e /\
       ndigits c + e - prec ctx <= Etop ctx.

End Dec.

(* ===================================================================== *)
(** ** binary64 floats *)
(* ===================================================================== *)

Module Flt.

Definition float : Type := spec_float.

Definition fprec : Z := 53.
Definition femax : Z := 1024.

(** [float(d)] for a decimal: the nearest binary64, ties to even (the
    conversion goes through [repr] and the correctly rounded string
    parser); a magnitude beyond the largest float gives an infinity. *)
Definition of_decimal (d : Dec.Decimal) : float :=
  match d with
  | Dec.Infinity s => S754_infinity s
  | Dec.Finite s c e =>
      if (c =? 0)%N then S754_zero s
      else if 0 <=? e then
        let m := Z.of_N c * 10 ^ e in
        binary_normalize fprec femax (if s then - m else m) 0 s
      else
        let '(q, e', l) :=
          SFdiv_core_binary fprec femax (Z.of_N c) 0 (10 ^ (- e)) 0 in
        binary_round_aux fprec femax s q e' l
  end.

(** The literals of the script. *)
Definition f_1_0 : float := S754_finite false 4503599627370496 (-52).
Definition f_100 : float := S754_finite false 7036874417766400 (-46).
Definition f_0_99 : float := of_decimal (Dec.Finite false 99 (-2)).
Definition f_0_0001 : float := of_decimal (Dec.Finite false 1 (-4)).

Definition fsub : float -> float -> float := SFsub fprec femax.
Definition fmul : float -> float -> float := SFmul fprec femax.
Definition fabs : float -> float := SFabs.
(** [a > b] *)
Definition fgt (a b : float) : bool := SFltb b a.

(** Rational value of a finite float. *)
Definition to_Q (f : float) : Q :=
  match f with
  | S754_finite s m e =>
      let v := (inject_Z (Zpos m) * (2 # 1) ^ e)%Q in
      if s then (- v)%Q else v
  | _ => 0%Q
  end.

End Flt.

(* ===================================================================== *)
(** ** Report lines and the output monad *)
(* ===================================================================== *)

Inductive status : Type :=
| PlayerAdvantage     (* "PLAYER ADVANTAGE" *)
| OkNearTarget        (* "OK (Near target)" *)
| OkStatus.           (* "OK" *)

(** One constructor per [print] call of the script, carrying the values
    the format string interpolates.  The three constant banners of [main]
    (a title between two rules of [=]) are one event each: [MainTitle],
    [SummaryTitle] and [FindingsTitle]. *)
Inductive line : Type :=
| Rule (heavy : bool)
| Heading (rows : Z)
| LeftProbabilityLine (p : Dec.Decimal)
| RightProbabilityLine (p : Dec.Decimal)
| BucketAnalysis
| ColumnHeader
| BucketRow (bucket_index left_steps : Z) (prob multiplier contribution : Flt.float)
| Totals (total_prob total_rtp : Flt.float)
| TheoreticalRtp (percent : Flt.float)
| HouseEdge (percent : Flt.float)
| Warning (total_prob : Flt.float)
| MainTitle
| SummaryTitle
| SummaryHeader
| SummaryRow (rows : Z) (rtp_percent house_edge : Flt.float) (st : status)
| FindingsTitle
| NegativeEdge (count : nat)
| Impossible
| TablesIncorrect
| AllPositive.

(** A computation that prints and may raise: the lines printed so far
    survive an exception. *)
Definition IO (A : Type) : Type := (list line * result A)%type.

Definition ret {A : Type} (a : A) : IO A := ([], Ok a).

Definition iobind {A B : Type} (m : IO A) (f : A -> IO B) : IO B :=
  match m with
  | (out, Ok a) => let '(out', r) := f a in (out ++ out', r)
  | (out, Raise e) => (out, Raise e)
  end.

Definition print (l : line) : IO unit := ([l], Ok tt).

Definition lift {A : Type} (r : result A) : IO A := ([], r).

Declare Scope io_scope.
Delimit Scope io_scope with io.
Notation "x <- c1 ;; c2" := (iobind c1 (fun x => c2))
  (at level 61, c1 at next level, right associativity) : io_scope.
Notation "c1 ;; c2" := (iobind c1 (fun _ => c2))
  (at level 61, right associativity) : io_scope.

(* ===================================================================== *)
(** ** calculate_plinko_rtp.py *)
(* ===================================================================== *)

Module Plinko.

Import Dec.

(** [Decimal(str(m))] for a number written [c]E[e] in the source: the
    entries of the tables are ints and short float literals, whose [str]
    is the literal itself. *)
Definition lit (c : N) (e : Z) : Decimal := Finite false c e.

(** HIGH risk multiplier tables, keyed by row count. *)
Definition MULTIPLIER_TABLES : list (Z * list Decimal) :=
  [ (11, [lit 120 0; lit 14 0; lit 52 (-1); lit 14 (-1); lit 4 (-1); lit 2 (-1);
          lit 2 (-1); lit 4 (-1); lit 14 (-1); lit 52 (-1); lit 14 0; lit 120 0]);
    (12, [lit 170 0; lit 24 0; lit 81 (-1); lit 2 0; lit 7 (-1); lit 2 (-1);
          lit 2 (-1); lit 2 (-1); lit 7 (-1); lit 2 0; lit 81 (-1); lit 24 0;
          lit 170 0]);
    (13, [lit 260 0; lit 37 0; lit 11 0; lit 4 0; lit 1 0; lit 2 (-1); lit 2 (-1);
          lit 2 (-1); lit 2 (-1); lit 1 0; lit 4 0; lit 11 0; lit 37 0; lit 260 0]);
    (14, [lit 420 0; lit 56 0; lit 18 0; lit 5 0; lit 19 (-1); lit 3 (-1);
          lit 2 (-1); lit 2 (-1); lit 2 (-1); lit 3 (-1); lit 19 (-1); lit 5 0;
          lit 18 0; lit 56 0; lit 420 0]);
    (15, [lit 620 0; lit 83 0; lit 27 0; lit 8 0; lit 3 0; lit 5 (-1); lit 2 (-1);
          lit 2 (-1); lit 2 (-1); lit 2 (-1); lit 5 (-1); lit 3 0; lit 8 0;
          lit 27 0; lit 83 0; lit 620 0]);
    (16, [lit 1000 0; lit 130 0; lit 26 0; lit 9 0; lit 4 0; lit 2 0; lit 2 (-1);
          lit 2 (-1); lit 2 (-1); lit 2 (-1); lit 2 (-1); lit 2 0; lit 4 0;
          lit 9 0; lit 26 0; lit 130 0; lit 1000 0]) ].

(** [d[key]] on a dict. *)
Fixpoint getitem {V : Type} (d : list (Z * V)) (key : Z) : result V :=
  match d with
  | [] => Raise KeyError
  | (k, v) :: rest => if k =? key then Ok v else getitem rest key
  end.

(** [Decimal('0.499975')] *)
Definition LEFT_PROBABILITY : Decimal := Finite false 499975 (-6).

Definition ctx : Context := getcontext.

(** P(X = k) for X ~ Binomial(n, p). *)
Definition binomial_probability (n k : Z) (p : Decimal) : result Decimal :=
  (c <- comb n k ;;
   let combinations := of_int c in
   p_success <- pow ctx p k ;;
   q <- sub ctx one p ;;
   p_failure <- pow ctx q (n - k) ;;
   t <- mul ctx combinations p_success ;;
   mul ctx t p_failure)%py.

(** The body of [for bucket_index in range(len(multipliers))], run over the
    entries still to visit; [bucket_index] is the index of the head. *)
Fixpoint bucket_loop (rows : Z) (multipliers : list Decimal) (bucket_index : Z)
    (total_rtp total_prob : Decimal) : IO (Decimal * Decimal) :=
  match multipliers with
  | [] => ret (total_rtp, total_prob)
  | multiplier :: rest =>
      (let left_steps := bucket_index in
       prob <- lift (binomial_probability rows left_steps LEFT_PROBABILITY) ;;
       total_prob <- lift (add ctx total_prob prob) ;;
       contribution <- lift (mul ctx prob multiplier) ;;
       total_rtp <- lift (add ctx total_rtp contribution) ;;
       print (BucketRow bucket_index left_steps (Flt.of_decimal prob)
                (Flt.of_decimal multiplier) (Flt.of_decimal contribution)) ;;
       bucket_loop rows rest (bucket_index + 1) total_rtp total_prob)%io
  end.

(** [abs(float(total_prob) - 1.0) > 0.0001] *)
Definition anomaly (total_prob : Decimal) : bool :=
  Flt.fgt (Flt.fabs (Flt.fsub (Flt.of_decimal total_prob) Flt.f_1_0))
          Flt.f_0_0001.

Definition calculate_rtp (rows : Z) : IO Flt.float :=
  (multipliers <- lift (getitem MULTIPLIER_TABLES rows) ;;
   print (Rule true) ;;
   print (Heading rows) ;;
   print (Rule true) ;;
   print (LeftProbabilityLine LEFT_PROBABILITY) ;;
   right <- lift (sub ctx one LEFT_PROBABILITY) ;;
   print (RightProbabilityLine right) ;;
   print BucketAnalysis ;;
   print ColumnHeader ;;
   print (Rule false) ;;
   totals <- bucket_loop rows multipliers 0 (Finite false 0 0) (Finite false 0 0) ;;
   let '(total_rtp, total_prob) := totals in
   print (Rule false) ;;
   print (Totals (Flt.of_decimal total_prob) (Flt.of_decimal total_rtp)) ;;
   print (Rule true) ;;
   percent <- lift (mul ctx total_rtp (of_int 100)) ;;
   print (TheoreticalRtp (Flt.of_decimal percent)) ;;
   edge <- lift (sub ctx one total_rtp) ;;
   edge_percent <- lift (mul ctx edge (of_int 100)) ;;
   print (HouseEdge (Flt.of_decimal edge_percent)) ;;
   print (Rule true) ;;
   (if anomaly total_prob
    then print (Warning (Flt.of_decimal total_prob))
    else ret tt) ;;
   ret (Flt.of_decimal total_rtp))%io.

(** [results[rows] = rtp] *)
Fixpoint setitem {V : Type} (d : list (Z * V)) (key : Z) (v : V)
  : list (Z * V) :=
  match d with
  | [] => [(key, v)]
  | (k, w) :: rest =>
      if k =? key then (k, v) :: rest else (k, w) :: setitem rest key v
  end.

Fixpoint insert_sorted (k : Z) (l : list Z) : list Z :=
  match l with
  | [] => [k]
  | h :: t => if k <=? h then k :: l else h :: insert_sorted k t
  end.

(** [sorted(l)] on ints. *)
Definition sorted (l : list Z) : list Z := fold_right insert_sorted [] l.

Definition keys {V : Type} (d : list (Z * V)) : list Z := map fst d.
Definition values {V : Type} (d : list (Z * V)) : list V := map snd d.

(** The status column of the summary. *)
Definition classify (rtp : Flt.float) : status :=
  if Flt.fgt rtp Flt.f_1_0 then PlayerAdvantage
  else if Flt.fgt rtp Flt.f_0_99 then OkNearTarget
  else OkStatus.

(** [sum(1 for rtp in results.values() if rtp > 1.0)] *)
Definition negative_edge_count (results : list (Z * Flt.float)) : nat :=
  length (filter (fun rtp => Flt.fgt rtp Flt.f_1_0) (values results)).

Fixpoint evaluate_all (rows_list : list Z) (results : list (Z * Flt.float))
  : IO (list (Z * Flt.float)) :=
  match rows_list with
  | [] => ret results
  | rows :: rest =>
      (rtp <- calculate_rtp rows ;;
       evaluate_all rest (setitem results rows rtp))%io
  end.

Fixpoint summary (results : list (Z * Flt.float)) (rows_list : list Z)
  : IO unit :=
  match rows_list with
  | [] => ret tt
  | rows :: rest =>
      (rtp <- lift (getitem results rows) ;;
       let house_edge := Flt.fmul (Flt.fsub Flt.f_1_0 rtp) Flt.f_100 in
       let st := classify rtp in
       print (SummaryRow rows (Flt.fmul rtp Flt.f_100) house_edge st) ;;
       summary results rest)%io
  end.

Definition main : IO unit :=
  (print MainTitle ;;
   results <- evaluate_all [11; 12; 13; 14; 15; 16] [] ;;
   print SummaryTitle ;;
   print SummaryHeader ;;
   print (Rule false) ;;
   summary results (sorted (keys results)) ;;
   print (Rule true) ;;
   print FindingsTitle ;;
   let count := negative_edge_count results in
   (if (0 <? count)%nat
    then (print (NegativeEdge count) ;; print Impossible ;; print TablesIncorrect)
    else print AllPositive) ;;
   print (Rule true))%io.

End Plinko.

(* ===================================================================== *)
(** ** Specification-level definitions *)
(* ===================================================================== *)

Module Spec.

Import Dec Plinko.

(** The aggregator as the specification words it: for each bucket index
    [i] from 0 to [rows], [p_i = probability(rows, i, bias)], the
    contribution [p_i * multipliers[i]], and the two running sums.  A
    missing table entry is a [KeyError]. *)
Fixpoint aggregate_from (rows : Z) (bias : Decimal) (multipliers : list Decimal)
    (i : Z) (count : nat) (rtp total_probability : Decimal)
  : result (Decimal * Decimal) :=
  match count with
  | O => Ok (rtp, total_probability)
  | S count' =>
      (p_i <- binomial_probability rows i bias ;;
       m_i <- match nth_error multipliers (Z.to_nat i) with
              | Some m => Ok m
              | None => Raise KeyError
              end ;;
       contribution <- mul ctx p_i m_i ;;
       rtp <- add ctx rtp contribution ;;
       total_probability <- add ctx total_probability p_i ;;
       aggregate_from rows bias multipliers (i + 1) count' rtp total_probability)%py
  end.

Definition aggregate (rows : Z) (bias : Decimal) (multipliers : list Decimal)
  : result (Decimal * Decimal) :=
  aggregate_from rows bias multipliers 0 (S (Z.to_nat rows))
                 (Finite false 0 0) (Finite false 0 0).

(** n! *)
Fixpoint fact (n : nat) : N :=
  match n with
  | O => 1%N
  | S m => (N.of_nat (S m) * fact m)%N
  end.

(** The exact binomial probability C(n,k) p^k (1-p)^(n-k) as a rational. *)
Definition exact_probability (n k : nat) (p : Q) : Q :=
  (inject_Z (Z.of_N (binom n k)) * p ^ Z.of_nat k * (1 - p) ^ Z.of_nat (n - k))%Q.

(** [Decimal('0')], the initial value of both accumulators. *)
Definition zero : Decimal := Finite false 0 0.

(** The row counts of MULTIPLIER_TABLES. *)
Definition supported_rows : list Z := [11; 12; 13; 14; 15; 16].

(** The accumulators [(total_rtp, total_prob)] the loop of
    [calculate_rtp(rows)] ends with. *)
Definition run_totals (rows : Z) : result (Decimal * Decimal) :=
  (multipliers <- getitem MULTIPLIER_TABLES rows ;;
   snd (bucket_loop rows multipliers 0 zero zero))%py.

Definition is_warning (l : line) : bool :=
  match l with
  | Warning _ => true
  | _ => false
  end.

Definition is_bucket_row (l : line) : bool :=
  match l with
  | BucketRow _ _ _ _ _ => true
  | _ => false
  end.

(** The bucket lines the specification asks for: bucket i = 0 .. count-1
    with its probability, multiplier and contribution. *)
Fixpoint expected_rows (rows : Z) (bias : Decimal) (multipliers : list Decimal)
    (i : Z) : list line :=
  match multipliers with
  | [] => []
  | m :: rest =>
      match binomial_probability rows i bias with
      | Ok p =>
          match mul ctx p m with
          | Ok contribution =>
              BucketRow i i (Flt.of_decimal p) (Flt.of_decimal m)
                        (Flt.of_decimal contribution)
              :: expected_rows rows bias rest (i + 1)
          | Raise _ => []
          end
      | Raise _ => []
      end
  end.

(** The lines [calculate_rtp] prints before and after the bucket table. *)
Definition header (rows : Z) (right : Decimal) : list line :=
  [Rule true; Heading rows; Rule true; LeftProbabilityLine LEFT_PROBABILITY;
   RightProbabilityLine right; BucketAnalysis; ColumnHeader; Rule false].

Definition footer (total_rtp total_prob percent edge_percent : Decimal)
  : list line :=
  [Rule false; Totals (Flt.of_decimal total_prob) (Flt.of_decimal total_rtp);
   Rule true; TheoreticalRtp (Flt.of_decimal percent);
   HouseEdge (Flt.of_decimal edge_percent); Rule true].


(** Does [calculate_rtp(rows)] return, with its totals within 1e-9 of a
    full distribution, no anomaly, and no warning line? *)
Definition clean_run (rows : Z) : bool :=
  match run_totals rows, calculate_rtp rows with
  | Ok (total_rtp, total_prob), (out, Ok returned) =>
      Qle_bool (Qabs (value total_prob - 1)) (1 # 1000000000)
      && negb (anomaly total_prob)
      && negb (existsb is_warning out)
  | _, _ => false
  end.

(** [Decimal('0.5')] *)
Definition half : Decimal := Finite false 5 (-1).

(** [Decimal('0.99...9')] with K nines: a bias of (0, 1) whose complement
    1E-K lies below the smallest positive number of the context once
    K > 1000048. *)
Definition nines (K : Z) : Decimal := Finite false (pow10 K - 1) (- K).

(** The value [probability(rows, k, bias)] returns, 0 when it raises. *)
Definition probability_value (rows : Z) (bias : Decimal) (k : nat) : Q :=
  match binomial_probability rows (Z.of_nat k) bias with
  | Ok d => value d
  | Raise _ => 0%Q
  end.

(** Sum of f(0) .. f(n-1). *)
Fixpoint Qsum (f : nat -> Q) (n : nat) : Q :=
  match n with
  | O => 0%Q
  | S m => (Qsum f m + f m)%Q
  end.

(** Python's [==] on two decimal results: both finite with equal values. *)
Definition numeric_eq (a b : result Decimal) : Prop :=
  match a, b with
  | Ok (Finite sa ca ea), Ok (Finite sb cb eb) =>
      (value (Finite sa ca ea) == value (Finite sb cb eb))%Q
  | _, _ => False
  end.

Definition decimal_eqb (a b : Decimal) : bool :=
  match a, b with
  | Finite sa ca ea, Finite sb cb eb =>
      Bool.eqb sa sb && (ca =? cb)%N && (ea =? eb)
  | Infinity sa, Infinity sb => Bool.eqb sa sb
  | _, _ => false
  end.

(** Do [probability(rows, k, bias)] and [probability(rows, rows-k, bias)]
    return the same decimal, for every k = 0 .. count-1? *)
Fixpoint symmetric_row (rows : Z) (bias : Decimal) (count : nat) : bool :=
  match count with
  | O => true
  | S c =>
      match binomial_probability rows (Z.of_nat c) bias,
            binomial_probability rows (rows - Z.of_nat c) bias with
      | Ok a, Ok b => decimal_eqb a b && symmetric_row rows bias c
      | _, _ => false
      end
  end.

Fixpoint symmetric_upto (bias : Decimal) (count : nat) : bool :=
  match count with
  | O => true
  | S c => symmetric_row (Z.of_nat c) bias (S c) && symmetric_upto bias c
  end.

End Spec.

(* ===================================================================== *)
(** ** Reference definitions for the totals and the summary *)
(* ===================================================================== *)

Module Ref.

Import Dec Plinko Spec.

(** Is the decimal finite and not below zero (a zero of either sign
    included)? *)
Definition is_nonneg (d : Decimal) : bool :=
  match d with
  | Finite s c _ => negb s || (c =? 0)%N
  | Infinity _ => false
  end.

(** The decimals 1, 1.0, 1.00, ...: coefficient 10^j at exponent -j. *)
Definition unit_bias (j : Z) : Decimal := Finite false (pow10 j) (- j).

(** The exact RTP of a table: the sum over the buckets i, i + 1, ... of
    C(n, i) p^i (1 - p)^(n - i) times the multiplier of the bucket, as a
    fraction in lowest terms. *)
Fixpoint exact_rtp_from (n : nat) (p : Q) (multipliers : list Q) (i : nat) : Q :=
  match multipliers with
  | [] => 0%Q
  | m :: rest =>
      Qred (exact_probability n i p * m + exact_rtp_from n p rest (S i))%Q
  end.

Definition exact_rtp (n : nat) (p : Q) (multipliers : list Q) : Q :=
  exact_rtp_from n p multipliers 0.

(** Does [exact] lie strictly between 0.98 and 1, with the decimal value
    [v] within 1e-49 and the float value [f] within 2^-54 of it? *)
Definition accurate (v f exact : Q) : bool :=
  Qle_bool (Qabs (v - exact)) (1 # 10 ^ 49)
  && Qle_bool (Qabs (f - exact)) (1 # 2 ^ 54)
  && negb (Qle_bool exact (98 # 100))
  && negb (Qle_bool 1 exact).

(** The reports [calculate_rtp] prints for the row counts of a list, one
    after the other. *)
Definition reports (rows_list : list Z) : list line :=
  concat (map (fun rows => fst (calculate_rtp rows)) rows_list).

(** The row count of a summary row. *)
Definition summary_key (l : line) : option Z :=
  match l with
  | SummaryRow rows _ _ _ => Some rows
  | _ => None
  end.

(** The status of a summary row. *)
Definition summary_status (l : line) : option status :=
  match l with
  | SummaryRow _ _ _ st => Some st
  | _ => None
  end.

Definition is_summary_row (l : line) : bool :=
  match l with
  | SummaryRow _ _ _ _ => true
  | _ => false
  end.

(** The summary row of a row count whose stored RTP is [rtp]. *)
Definition summary_row (rows : Z) (rtp : Flt.float) : line :=
  SummaryRow rows (Flt.fmul rtp Flt.f_100)
    (Flt.fmul (Flt.fsub Flt.f_1_0 rtp) Flt.f_100) (classify rtp).

(** The summary rows of a list of row counts, each with the RTP
    [calculate_rtp] returns for it. *)
Definition expected_summary (rows_list : list Z) : list line :=
  flat_map (fun rows =>
              match snd (calculate_rtp rows) with
              | Ok rtp => [summary_row rows rtp]
              | Raise _ => []
              end) rows_list.

(** The lines of the findings section that depend on the count. *)
Definition is_finding (l : line) : bool :=
  match l with
  | NegativeEdge _ | Impossible | TablesIncorrect | AllPositive => true
  | _ => false
  end.

End Ref.

(* ===================================================================== *)
(** * Proofs *)
(* ===================================================================== *)

(** [lia] and [nia] decide goals with division and modulo by this hook. *)
Ltac Zify.zify_post_hook ::= Z.to_euclidean_division_equations.

(* ===================================================================== *)
(** ** Powers of ten and digit counts *)
(* ===================================================================== *)

Module DecFacts.

Import Dec.

Lemma pow10_pos k : (0 < pow10 k)%N.
Proof.
  unfold pow10. apply N.neq_0_lt_0, N.pow_nonzero. discriminate.
Qed.

Lemma pow10_0 : pow10 0 = 1%N.
Proof. reflexivity. Qed.

Lemma pow10_nonpos k : k <= 0 -> pow10 k = 1%N.
Proof.
  intros H. unfold pow10. destruct k; try reflexivity. lia.
Qed.

Lemma pow10_add a b : 0 <= a -> 0 <= b -> pow10 (a + b) = (pow10 a * pow10 b)%N.
Proof.
  intros Ha Hb. unfold pow10.
  rewrite Z2N.inj_add by assumption. apply N.pow_add_r.
Qed.

Lemma pow10_succ k : 0 <= k -> pow10 (k + 1) = (10 * pow10 k)%N.
Proof.
  intros Hk. rewrite pow10_add by lia. change (pow10 1) with 10%N. lia.
Qed.

Lemma pow10_le_mono a b : a <= b -> (pow10 a <= pow10 b)%N.
Proof.
  intros H. unfold pow10. apply N.pow_le_mono_r; [discriminate|lia].
Qed.

Lemma pow10_lt_mono a b : 0 <= a -> a < b -> (pow10 a < pow10 b)%N.
Proof.
  intros Ha H. unfold pow10. apply N.pow_lt_mono_r; [reflexivity|lia].
Qed.

Lemma pow10_ge_1 k : (1 <= pow10 k)%N.
Proof. pose proof (pow10_pos k). lia. Qed.

Lemma ndigits_fuel_spec c fuel : forall d,
  1 <= d ->
  (c < pow10 (d - 1 + Z.of_nat fuel))%N ->
  (d = 1 \/ (pow10 (d - 1) <= c)%N) ->
  d <= ndigits_fuel fuel (pow10 d) d c /\
  (c < pow10 (ndigits_fuel fuel (pow10 d) d c))%N /\
  (c <> 0%N -> (pow10 (ndigits_fuel fuel (pow10 d) d c - 1) <= c)%N).
Proof.
  induction fuel as [|f IH]; intros d Hd Hup Hlow.
  - cbn [ndigits_fuel]. replace (d - 1 + Z.of_nat 0) with (d - 1) in Hup by lia.
    destruct Hlow as [->|Hlow]; [|lia].
    change (pow10 (1 - 1)) with 1%N in *.
    repeat split; try lia. change (pow10 1) with 10%N. lia.
  - cbn [ndigits_fuel]. destruct (N.ltb_spec c (pow10 d)) as [Hlt|Hge].
    + repeat split; try lia. intros Hnz.
      destruct Hlow as [->|Hlow]; [|exact Hlow].
      change (pow10 (1 - 1)) with 1%N. lia.
    + rewrite <- pow10_succ by lia.
      destruct (IH (d + 1)) as (H1 & H2 & H3).
      * lia.
      * replace (d + 1 - 1 + Z.of_nat f) with (d - 1 + Z.of_nat (S f)) by lia.
        exact Hup.
      * right. replace (d + 1 - 1) with d by lia. exact Hge.
      * repeat split; [lia|exact H2|exact H3].
Qed.

Lemma ndigits_spec c :
  1 <= ndigits c /\
  (c < pow10 (ndigits c))%N /\
  (c <> 0%N -> (pow10 (ndigits c - 1) <= c)%N).
Proof.
  unfold ndigits. change 10%N with (pow10 1).
  apply ndigits_fuel_spec; [lia| |left; reflexivity].
  replace (1 - 1 + Z.of_nat (N.to_nat (N.size c))) with (Z.of_N (N.size c)) by lia.
  unfold pow10. rewrite N2Z.id.
  pose proof (N.size_gt c) as Hs.
  assert (2 ^ N.size c <= 10 ^ N.size c)%N by (apply N.pow_le_mono_l; lia).
  lia.
Qed.

Lemma ndigits_pos c : 1 <= ndigits c.
Proof. apply ndigits_spec. Qed.

Lemma ndigits_upper c : (c < pow10 (ndigits c))%N.
Proof. apply ndigits_spec. Qed.

Lemma ndigits_lower c : c <> 0%N -> (pow10 (ndigits c - 1) <= c)%N.
Proof. apply ndigits_spec. Qed.

(** A coefficient below 10^d has at most d digits. *)
Lemma ndigits_le c d : 1 <= d -> (c < pow10 d)%N -> ndigits c <= d.
Proof.
  intros Hd Hc.
  destruct (N.eq_dec c 0) as [->|Hnz]; [exact Hd|].
  destruct (Z_le_gt_dec (ndigits c) d) as [|Hgt]; [assumption|exfalso].
  pose proof (ndigits_lower c Hnz) as Hl.
  pose proof (pow10_le_mono d (ndigits c - 1) ltac:(lia)). lia.
Qed.

(** A coefficient of at least 10^(d-1) has at least d digits. *)
Lemma ndigits_ge c d : (pow10 (d - 1) <= c)%N -> d <= ndigits c.
Proof.
  intros Hc.
  destruct (Z_le_gt_dec d (ndigits c)) as [|Hgt]; [assumption|exfalso].
  pose proof (ndigits_upper c) as Hu. pose proof (ndigits_pos c).
  pose proof (pow10_le_mono (ndigits c) (d - 1) ltac:(lia)). lia.
Qed.

Lemma ndigits_pow10 k : 0 <= k -> ndigits (pow10 k) = k + 1.
Proof.
  intros Hk. apply Z.le_antisymm.
  - apply ndigits_le; [lia|]. apply pow10_lt_mono; lia.
  - apply ndigits_ge. replace (k + 1 - 1) with k by lia. lia.
Qed.

End DecFacts.

(* ===================================================================== *)
(** ** Rounding to the context *)
(* ===================================================================== *)

Module FixFacts.

Import Dec DecFacts.

Section Rounding.

Variables (c : N) (k : Z).
Hypothesis Hk : 1 <= k.

Let T := pow10 k.

Lemma pow10_split : T = (10 * pow10 (k - 1))%N.
Proof.
  unfold T. replace k with ((k - 1) + 1) at 1 by lia.
  apply pow10_succ. lia.
Qed.

(** The rounded quotient is within half a unit of c / 10^k. *)
Lemma round_half_even_error :
  (2 * (round_half_even c k * T) <= 2 * c + T /\
   2 * c <= 2 * (round_half_even c k * T) + T)%N.
Proof.
  unfold round_half_even. fold T.
  pose proof pow10_split as HT.
  pose proof (pow10_pos k) as HTpos. fold T in HTpos.
  pose proof (N.Div0.div_mod c T) as Hdm.
  pose proof (N.mod_upper_bound c T ltac:(lia)) as Hmod.
  set (h := pow10 (k - 1)) in *. clearbody h.
  set (q := (c / T)%N) in *. set (r := (c mod T)%N) in *.
  clearbody q r.
  destruct (N.ltb_spec (5 * h) r) as [H1|H1]; cbn [orb].
  - nia.
  - destruct (N.eqb_spec r (5 * h)) as [H2|H2]; cbn [andb].
    + destruct (N.odd q); nia.
    + nia.
Qed.

(** It lies between the floor and the ceiling. *)
Lemma round_half_even_le M : (c <= M * T)%N -> (round_half_even c k <= M)%N.
Proof.
  intros HM. unfold round_half_even. fold T.
  pose proof pow10_split as HT.
  pose proof (pow10_pos k) as HTpos. fold T in HTpos.
  pose proof (N.Div0.div_mod c T) as Hdm.
  pose proof (N.mod_upper_bound c T ltac:(lia)) as Hmod.
  set (h := pow10 (k - 1)) in *. clearbody h.
  set (q := (c / T)%N) in *. set (r := (c mod T)%N) in *.
  clearbody q r.
  assert (Hq : (q <= M)%N) by nia.
  destruct (N.ltb_spec (5 * h) r) as [H1|H1]; cbn [orb].
  - assert (q < M)%N by nia. lia.
  - destruct (N.eqb_spec r (5 * h)) as [H2|H2]; cbn [andb].
    + destruct (N.odd q); [|lia].
      assert (q < M)%N by nia. lia.
    + lia.
Qed.

Lemma round_half_even_ge M : (M * T <= c)%N -> (M <= round_half_even c k)%N.
Proof.
  intros HM. unfold round_half_even. fold T.
  pose proof (pow10_pos k) as HTpos. fold T in HTpos.
  pose proof (N.Div0.div_mod c T) as Hdm.
  pose proof (N.mod_upper_bound c T ltac:(lia)) as Hmod.
  set (q := (c / T)%N) in *. set (r := (c mod T)%N) in *.
  clearbody q r.
  assert (Hq : (M <= q)%N) by nia.
  destruct (_ || _); lia.
Qed.

End Rounding.

Lemma fix_finite_canonical ctx s c e :
  canonical ctx c e -> fix_finite ctx s c e = Ok (Finite s c e).
Proof.
  unfold canonical, fix_finite.
  destruct (N.eqb_spec c 0) as [->|Hnz]; intros H.
  - f_equal. f_equal. lia.
  - destruct H as (H1 & H2 & H3).
    destruct (Z.ltb_spec (Etop ctx) (ndigits c + e - prec ctx)); [lia|].
    destruct (Z.ltb_spec e (Z.max (ndigits c + e - prec ctx) (Etiny ctx)));
      [lia|reflexivity].
Qed.

(** What [_fix] does to a nonzero coefficient whose value is at most 10^m,
    stated on integers: the result [c' * 10^e'] is canonical, still at most
    10^m, and, scaled to the exponent [e], within half a unit of the
    rounding position [E] of [c]. *)
Lemma fix_finite_spec ctx s c e m :
  1 <= prec ctx -> Emin ctx <= Emax ctx -> Etiny ctx <= m -> m <= Emax ctx ->
  c <> 0%N -> e <= m -> (c <= pow10 (m - e))%N ->
  exists c' e',
    fix_finite ctx s c e = Ok (Finite s c' e') /\
    canonical ctx c' e' /\
    e' <= m /\ (c' <= pow10 (m - e'))%N /\
    e <= e' /\
    let E := Z.max (ndigits c + e - prec ctx) (Etiny ctx) in
    (2 * (c' * pow10 (e' - e)) <= 2 * c + pow10 (E - e) /\
     2 * c <= 2 * (c' * pow10 (e' - e)) + pow10 (E - e))%N /\
    (e' = e \/ E <= e').
Proof.
  intros Hprec Hctx Hm1 Hm2 Hnz Hem Hc.
  pose proof (ndigits_pos c) as Hnd1.
  pose proof (ndigits_upper c) as Hnd2.
  pose proof (ndigits_lower c Hnz) as Hnd3.
  (* at most m - e + 1 digits *)
  assert (Hnd : ndigits c <= m - e + 1).
  { apply ndigits_le; [lia|].
    pose proof (pow10_lt_mono (m - e) (m - e + 1) ltac:(lia) ltac:(lia)). lia. }
  unfold fix_finite.
  destruct (N.eqb_spec c 0) as [|_]; [contradiction|].
  assert (HEtop : Etop ctx = Emax ctx - prec ctx + 1) by reflexivity.
  assert (HEtiny : Etiny ctx = Emin ctx - prec ctx + 1) by reflexivity.
  destruct (Z.ltb_spec (Etop ctx) (ndigits c + e - prec ctx)) as [|Hov]; [lia|].
  cbn zeta.
  set (E := Z.max (ndigits c + e - prec ctx) (Etiny ctx)).
  assert (HEdef : E = Z.max (ndigits c + e - prec ctx) (Etiny ctx)) by reflexivity.
  clearbody E.
  assert (HE : E <= m) by lia.
  destruct (Z.ltb_spec e E) as [Hlt|Hge].
  - (* rounding *)
    set (k := E - e). assert (Hkdef : k = E - e) by reflexivity. clearbody k.
    assert (Hk : 1 <= k) by lia.
    assert (HmE : pow10 (m - e) = (pow10 (m - E) * pow10 k)%N).
    { rewrite <- pow10_add by lia. f_equal. lia. }
    destruct (Z.ltb_spec (ndigits c + e - E) 0) as [Hneg|Hdig].
    + (* every digit is dropped: the result is zero *)
      replace (E - (E - 1)) with 1 by lia.
      assert (Hr : round_half_even 1 1 = 0%N) by reflexivity.
      rewrite Hr. change (ndigits 0) with 1.
      destruct (Z.ltb_spec (prec ctx) 1); [lia|].
      destruct (Z.ltb_spec (Etop ctx) E) as [Hbad|_]; [lia|].
      exists 0%N, E. split; [reflexivity|].
      split. { unfold canonical. simpl. lia. }
      split; [lia|]. split. { pose proof (pow10_pos (m - E)). lia. }
      split; [lia|]. rewrite <- Hkdef.
      split; [|right; lia].
      assert (Hck : (2 * c <= pow10 k)%N).
      { assert (ndigits c <= k - 1) by lia.
        pose proof (pow10_le_mono (ndigits c) (k - 1) ltac:(lia)).
        replace k with ((k - 1) + 1) by lia. rewrite pow10_succ by lia. lia. }
      lia.
    + (* the leading digits are kept *)
      rewrite <- Hkdef.
      pose proof (round_half_even_error c k Hk) as [Hr1 Hr2].
      assert (Hr3 : (round_half_even c k <= pow10 (m - E))%N).
      { apply round_half_even_le; [assumption|]. lia. }
      assert (Hr4 : (round_half_even c k <= pow10 (prec ctx))%N).
      { apply round_half_even_le; [assumption|].
        rewrite <- pow10_add by lia.
        pose proof (pow10_le_mono (ndigits c) (prec ctx + k) ltac:(lia)).
        lia. }
      set (q := round_half_even c k) in *.
      destruct (Z.ltb_spec (prec ctx) (ndigits q)) as [Hcarry|Hfit].
      * (* the coefficient became 10^prec *)
        assert (Hq : q = pow10 (prec ctx)).
        { apply N.le_antisymm; [assumption|].
          destruct (N.le_gt_cases (pow10 (prec ctx)) q) as [|Hlow]; [assumption|].
          pose proof (ndigits_le q (prec ctx) Hprec Hlow). lia. }
        assert (Hq10 : (q / 10 = pow10 (prec ctx - 1))%N).
        { rewrite Hq. replace (prec ctx) with ((prec ctx - 1) + 1) at 1 by lia.
          rewrite pow10_succ by lia.
          rewrite N.mul_comm. apply N.div_mul. discriminate. }
        assert (HpE : prec ctx + E <= m).
        { destruct (Z_le_gt_dec (prec ctx + E) m) as [|Hgt]; [assumption|exfalso].
          rewrite Hq in Hr3.
          pose proof (pow10_lt_mono (m - E) (prec ctx) ltac:(lia) ltac:(lia)). lia. }
        destruct (Z.ltb_spec (Etop ctx) (E + 1)) as [|_]; [lia|].
        exists (q / 10)%N, (E + 1). split; [reflexivity|].
        rewrite Hq10.
        split.
        { unfold canonical.
          destruct (N.eqb_spec (pow10 (prec ctx - 1)) 0) as [Hz|_].
          - pose proof (pow10_pos (prec ctx - 1)). lia.
          - rewrite ndigits_pow10 by lia. lia. }
        split; [lia|].
        split. { apply pow10_le_mono. lia. }
        split; [lia|].
        replace (E + 1 - e) with (k + 1) by lia.
        assert (Hv : (pow10 (prec ctx - 1) * pow10 (k + 1) = q * pow10 k)%N).
        { rewrite Hq. rewrite <- !pow10_add by lia. f_equal. lia. }
        rewrite Hv. split; [lia|right; lia].
      * destruct (Z.ltb_spec (Etop ctx) E) as [Hbad|_]; [lia|].
        exists q, E. split; [reflexivity|].
        split.
        { unfold canonical. destruct (N.eqb_spec q 0) as [Hz|Hqnz].
          - lia.
          - split; [assumption|]. split; [lia|].
            assert (ndigits q <= m - E + 1).
            { apply ndigits_le; [lia|].
              pose proof (pow10_lt_mono (m - E) (m - E + 1) ltac:(lia) ltac:(lia)).
              lia. }
            lia. }
        split; [lia|]. split; [assumption|]. split; [lia|].
        rewrite <- Hkdef. split; [lia|right; lia].
  - (* already representable *)
    exists c, e. split; [reflexivity|].
    split.
    { unfold canonical. destruct (N.eqb_spec c 0); [contradiction|]. lia. }
    split; [assumption|]. split; [assumption|]. split; [lia|].
    replace (e - e) with 0 by lia. rewrite pow10_0.
    split; [lia|left; reflexivity].
Qed.

End FixFacts.

(* ===================================================================== *)
(** ** Rational values *)
(* ===================================================================== *)

Module ValueFacts.

Import Dec DecFacts FixFacts.

Local Open Scope Q_scope.

Lemma ten_nonzero : ~ (10 # 1) == 0.
Proof. discriminate. Qed.

Lemma p10_pos e : 0 < p10 e.
Proof. unfold p10. apply Qpower_0_lt. reflexivity. Qed.

Lemma p10_add a b : p10 (a + b) == p10 a * p10 b.
Proof. unfold p10. apply Qpower_plus, ten_nonzero. Qed.

Lemma p10_0 : p10 0 == 1.
Proof. reflexivity. Qed.

Lemma p10_pow10 k : (0 <= k)%Z -> inject_Z (Z.of_N (pow10 k)) == p10 k.
Proof.
  intros Hk. unfold pow10, p10.
  rewrite N2Z.inj_pow, Z2N.id by assumption.
  change (Z.of_N 10) with 10%Z.
  rewrite Zpower_Qpower by assumption. reflexivity.
Qed.

Lemma p10_ge_1 k : (0 <= k)%Z -> 1 <= p10 k.
Proof.
  intros Hk. rewrite <- (p10_pow10 k) by assumption.
  change 1 with (inject_Z 1). rewrite <- Zle_Qle.
  pose proof (pow10_pos k). lia.
Qed.

Lemma p10_le a b : (a <= b)%Z -> p10 a <= p10 b.
Proof.
  intros H. replace b with (a + (b - a))%Z by lia.
  rewrite p10_add.
  pose proof (p10_pos a). pose proof (p10_ge_1 (b - a) ltac:(lia)). nra.
Qed.

Lemma p10_lt a b : (a < b)%Z -> p10 a < p10 b.
Proof.
  intros H. replace b with (a + 1 + (b - a - 1))%Z by lia.
  rewrite !p10_add.
  pose proof (p10_pos a). pose proof (p10_ge_1 (b - a - 1) ltac:(lia)).
  change (p10 1) with (10 # 1). nra.
Qed.

Lemma p10_le_inv a b : p10 a <= p10 b -> (a <= b)%Z.
Proof.
  intros H. destruct (Z_le_gt_dec a b) as [|Hgt]; [assumption|exfalso].
  pose proof (p10_lt b a ltac:(lia)). lra.
Qed.

Lemma p10_succ a : p10 (a + 1) == 10 * p10 a.
Proof. rewrite p10_add. change (p10 1) with (10 # 1). ring. Qed.

Lemma injN_nonneg c : 0 <= inject_Z (Z.of_N c).
Proof. change 0 with (inject_Z 0). rewrite <- Zle_Qle. lia. Qed.

Lemma injN_pos c : c <> 0%N -> 1 <= inject_Z (Z.of_N c).
Proof. intros H. change 1 with (inject_Z 1). rewrite <- Zle_Qle. lia. Qed.

Lemma injN_mul a b :
  inject_Z (Z.of_N (a * b)) == inject_Z (Z.of_N a) * inject_Z (Z.of_N b).
Proof. rewrite N2Z.inj_mul, inject_Z_mult. reflexivity. Qed.

Lemma injN_le a b : (a <= b)%N <-> inject_Z (Z.of_N a) <= inject_Z (Z.of_N b).
Proof. rewrite <- Zle_Qle. lia. Qed.

Lemma uval_nonneg c e : 0 <= uval c e.
Proof.
  unfold uval. pose proof (injN_nonneg c). pose proof (p10_pos e). nra.
Qed.

Lemma uval_0 e : uval 0 e == 0.
Proof. unfold uval. simpl. ring. Qed.

Lemma uval_pos c e : c <> 0%N -> 0 < uval c e.
Proof.
  intros H. unfold uval. pose proof (injN_pos c H). pose proof (p10_pos e). nra.
Qed.

Lemma uval_scale c e k : (0 <= k)%Z -> uval (c * pow10 k) e == uval c (e + k).
Proof.
  intros Hk. unfold uval. rewrite injN_mul, p10_pow10 by assumption.
  rewrite p10_add. ring.
Qed.

Lemma uval_mul a ea b eb : uval (a * b) (ea + eb) == uval a ea * uval b eb.
Proof. unfold uval. rewrite injN_mul, p10_add. ring. Qed.

Lemma uval_pow10 k : (0 <= k)%Z -> uval (pow10 k) (- k) == 1.
Proof.
  intros Hk. unfold uval. rewrite p10_pow10 by assumption.
  rewrite <- p10_add. replace (k + - k)%Z with 0%Z by lia. reflexivity.
Qed.

(** Comparing a value with a power of ten, on integers. *)
Lemma uval_le_p10 c e m :
  (e <= m)%Z -> ((c <= pow10 (m - e))%N <-> uval c e <= p10 m).
Proof.
  intros Hem. unfold uval.
  replace m with ((m - e) + e)%Z at 2 by lia.
  rewrite p10_add. rewrite <- (p10_pow10 (m - e)) by lia.
  rewrite injN_le. pose proof (p10_pos e).
  split; intros Hc.
  - nra.
  - apply Qmult_le_r with (z := p10 e); assumption.
Qed.

Lemma uval_le_p10_exp c e m : c <> 0%N -> uval c e <= p10 m -> (e <= m)%Z.
Proof.
  intros Hnz H. apply p10_le_inv.
  unfold uval in H. pose proof (injN_pos c Hnz). pose proof (p10_pos e). nra.
Qed.

Lemma Qabs_same (a b d : Q) : a == b -> 0 <= d -> Qabs (a - b) <= d.
Proof.
  intros Hab Hd. apply Qabs_Qle_condition. rewrite Hab. split; lra.
Qed.

Lemma scaled_error_bound (X Y H P PE PM : Q) :
  PE <= PM -> PE == H * P -> 0 < P ->
  2 * Y <= 2 * X + H -> 2 * X <= 2 * Y + H ->
  Qabs (Y * P - X * P) <= (1 # 2) * PM.
Proof.
  intros HE HpE Hp Hlo Hhi.
  assert (H1 : 0 <= (2 * X + H - 2 * Y) * P)
    by (apply Qmult_le_0_compat; lra).
  assert (H2 : 0 <= (2 * Y + H - 2 * X) * P)
    by (apply Qmult_le_0_compat; lra).
  apply Qabs_Qle_condition. split; lra.
Qed.

(** [_fix] on rationals: a value of at most 10^m is rounded to a canonical
    triple, still at most 10^m, with an absolute error of at most half a
    unit in the place 10^max(m + 1 - prec, Etiny). *)
Lemma fix_finite_value ctx s c e m :
  (1 <= prec ctx)%Z -> (Emin ctx <= Emax ctx)%Z ->
  (Etiny ctx <= m)%Z -> (m <= Emax ctx)%Z ->
  uval c e <= p10 m ->
  exists c' e',
    fix_finite ctx s c e = Ok (Finite s c' e') /\
    canonical ctx c' e' /\
    uval c' e' <= p10 m /\
    Qabs (uval c' e' - uval c e)
      <= (1 # 2) * p10 (Z.max (m + 1 - prec ctx) (Etiny ctx)).
Proof.
  intros Hprec Hctx Hm1 Hm2 Hv.
  destruct (N.eq_dec c 0) as [->|Hnz].
  - (* a zero keeps its value *)
    exists 0%N, (Z.min (Z.max e (Etiny ctx)) (Emax ctx)).
    split; [reflexivity|]. split.
    { unfold canonical. simpl. unfold Etiny in *. lia. }
    rewrite !uval_0. split.
    { apply Qlt_le_weak, p10_pos. }
    setoid_replace (0 - 0) with 0 by ring. simpl.
    pose proof (p10_pos (Z.max (m + 1 - prec ctx) (Etiny ctx))). lra.
  - pose proof (uval_le_p10_exp c e m Hnz Hv) as Hem.
    pose proof (proj2 (uval_le_p10 c e m Hem) Hv) as Hc.
    destruct (fix_finite_spec ctx s c e m Hprec Hctx Hm1 Hm2 Hnz Hem Hc)
      as (c' & e' & Hfix & Hcan & He'm & Hc' & Hee' & [Hlo Hhi] & Hexp).
    exists c', e'. split; [assumption|]. split; [assumption|].
    split. { apply uval_le_p10; assumption. }
    set (E := Z.max (ndigits c + e - prec ctx) (Etiny ctx)) in *.
    assert (HE : (E <= Z.max (m + 1 - prec ctx) (Etiny ctx))%Z).
    { assert (ndigits c <= m - e + 1)%Z.
      { apply ndigits_le; [lia|].
        pose proof (pow10_lt_mono (m - e) (m - e + 1) ltac:(lia) ltac:(lia)). lia. }
      unfold E. lia. }
    apply p10_le in HE.
    assert (Hs : uval c' e' == uval (c' * pow10 (e' - e)) e).
    { rewrite uval_scale by lia. replace (e + (e' - e))%Z with e' by lia.
      reflexivity. }
    rewrite Hs.
    destruct (Z_le_gt_dec e E) as [HeE|HeE].
    + assert (HpE : p10 E == inject_Z (Z.of_N (pow10 (E - e))) * p10 e).
      { rewrite p10_pow10 by lia. rewrite <- p10_add.
        replace (E - e + e)%Z with E by lia. reflexivity. }
      apply injN_le in Hlo, Hhi.
      rewrite !N2Z.inj_add, !N2Z.inj_mul, !inject_Z_plus, !inject_Z_mult in Hlo, Hhi.
      change (inject_Z (Z.of_N 2)) with 2 in Hlo, Hhi.
      unfold uval. rewrite N2Z.inj_mul, inject_Z_mult.
      apply scaled_error_bound with (H := inject_Z (Z.of_N (pow10 (E - e)))) (PE := p10 E);
        auto using p10_pos.
    + (* E < e: the triple was kept *)
      rewrite (pow10_nonpos (E - e)) in Hlo, Hhi by lia.
      assert (Hcc : (c' * pow10 (e' - e))%N = c) by lia.
      rewrite Hcc.
      setoid_replace (uval c e - uval c e) with 0 by ring. simpl.
      pose proof (p10_pos (Z.max (m + 1 - prec ctx) (Etiny ctx))). lra.
Qed.

End ValueFacts.

(* ===================================================================== *)
(** ** Products and integer powers of values in [0, 1] *)
(* ===================================================================== *)

Module PowFacts.

Import Dec DecFacts FixFacts ValueFacts.

Local Open Scope Q_scope.

Lemma Qpower_xO x m : x ^ Zpos m~0 == x ^ Zpos m * x ^ Zpos m.
Proof.
  replace (Zpos m~0) with (Zpos m + Zpos m)%Z by lia.
  apply Qpower_plus'. lia.
Qed.

Lemma Qpower_xI x m : x ^ Zpos m~1 == x ^ Zpos m * x ^ Zpos m * x.
Proof.
  replace (Zpos m~1) with (Zpos m + Zpos m + 1)%Z by lia.
  rewrite Qpower_plus' by lia. rewrite Qpower_plus' by lia.
  change (x ^ 1) with x. reflexivity.
Qed.

Lemma Qpower_unit_interval x (n : positive) :
  0 <= x <= 1 -> 0 <= x ^ Zpos n <= 1.
Proof.
  intros Hx. induction n as [m IH|m IH|].
  - rewrite Qpower_xI. nra.
  - rewrite Qpower_xO. nra.
  - change (x ^ 1) with x. assumption.
Qed.

Lemma Qpower_succ x (n : nat) : x ^ Z.of_nat (S n) == x * x ^ Z.of_nat n.
Proof.
  rewrite Nat2Z.inj_succ. unfold Z.succ.
  rewrite Qpower_plus' by lia. change (x ^ 1) with x. ring.
Qed.

Lemma Qpower_nat_unit_interval x (n : nat) :
  0 <= x <= 1 -> 0 <= x ^ Z.of_nat n <= 1.
Proof.
  intros Hx. induction n as [|n IH].
  - simpl. lra.
  - rewrite Qpower_succ. nra.
Qed.

Lemma square_error (a b d : Q) :
  0 <= a <= 1 -> 0 <= b <= 1 -> - d <= a - b <= d ->
  - (2 * d) <= a * a - b * b <= 2 * d.
Proof.
  intros Ha Hb Hd.
  assert (0 <= d) by lra.
  assert (0 <= (d - (a - b)) * (a + b)) by (apply Qmult_le_0_compat; lra).
  assert (0 <= (d + (a - b)) * (a + b)) by (apply Qmult_le_0_compat; lra).
  assert (0 <= d * (2 - (a + b))) by (apply Qmult_le_0_compat; lra).
  split; lra.
Qed.

Lemma scale_error (a b x d : Q) :
  0 <= x <= 1 -> - d <= a - b <= d -> - d <= a * x - b * x <= d.
Proof.
  intros Hx Hd.
  assert (0 <= d) by lra.
  assert (0 <= (d - (a - b)) * x) by (apply Qmult_le_0_compat; lra).
  assert (0 <= (d + (a - b)) * x) by (apply Qmult_le_0_compat; lra).
  assert (0 <= d * (1 - x)) by (apply Qmult_le_0_compat; lra).
  split; lra.
Qed.

Section Work.

Variable wctx : Context.
Hypothesis Hprec : (1 <= prec wctx)%Z.
Hypothesis Hctx : (Emin wctx <= Emax wctx)%Z.
Hypothesis Htiny : (Etiny wctx <= 0)%Z.
Hypothesis Hmax : (0 <= Emax wctx)%Z.

(** Half a unit in the last place of a value of at most 1. *)
Let w : Q := (1 # 2) * p10 (Z.max (1 - prec wctx) (Etiny wctx)).

Lemma w_pos : 0 < w.
Proof. unfold w. pose proof (p10_pos (Z.max (1 - prec wctx) (Etiny wctx))). lra. Qed.

(** A product of two values of [0, 1], rounded. *)
Lemma mul_unit_interval ca ea cb eb :
  uval ca ea <= 1 -> uval cb eb <= 1 ->
  exists c' e',
    mul wctx (Finite false ca ea) (Finite false cb eb) = Ok (Finite false c' e') /\
    canonical wctx c' e' /\
    uval c' e' <= 1 /\
    Qabs (uval c' e' - uval ca ea * uval cb eb) <= w.
Proof.
  intros Ha Hb. cbn [mul xorb].
  pose proof (uval_nonneg ca ea). pose proof (uval_nonneg cb eb).
  assert (Hv : uval (ca * cb) (ea + eb) <= p10 0).
  { rewrite uval_mul. change (p10 0) with 1. nra. }
  destruct (fix_finite_value wctx false _ _ 0%Z Hprec Hctx Htiny Hmax Hv)
    as (c' & e' & Hfix & Hcan & Hle & Herr).
  exists c', e'. rewrite uval_mul in Herr.
  repeat split; assumption.
Qed.

Variables (c : N) (e : Z).
Hypothesis Hx : uval c e <= 1.

Let X : Q := uval c e.

(** The square-and-multiply loop on a base of [0, 1]: it never raises,
    stays in [0, 1], and after the products for the exponent n it is within
    (n - 1) half-units of the exact power. *)
Lemma pow_uint_value (n : positive) :
  exists c' e',
    pow_uint wctx (Finite false c e) n = Ok (Finite false c' e') /\
    uval c' e' <= 1 /\
    Qabs (uval c' e' - X ^ Zpos n) <= inject_Z (Zpos n - 1) * w.
Proof.
  pose proof w_pos as Hw.
  assert (HX : 0 <= X <= 1) by (split; [apply uval_nonneg|exact Hx]).
  induction n as [m IH|m IH|].
  - (* n = 2m + 1 *)
    destruct IH as (cr & er & Hr & Hr1 & Hrerr).
    cbn [pow_uint]. rewrite Hr. cbn [bind].
    destruct (mul_unit_interval cr er cr er Hr1 Hr1)
      as (c2 & e2 & H2 & _ & H21 & H2err).
    rewrite H2. cbn [bind].
    destruct (mul_unit_interval c2 e2 c e H21 Hx)
      as (c3 & e3 & H3 & _ & H31 & H3err).
    exists c3, e3. split; [assumption|]. split; [assumption|].
    rewrite Qpower_xI.
    pose proof (Qpower_unit_interval X m HX) as HXm.
    pose proof (uval_nonneg cr er). pose proof (uval_nonneg c2 e2).
    replace (Zpos m~1 - 1)%Z with (2 * (Zpos m - 1) + 2)%Z by lia.
    rewrite inject_Z_plus, inject_Z_mult.
    change (inject_Z 2) with 2.
    assert (Hm : 0 <= inject_Z (Zpos m - 1)).
    { change 0 with (inject_Z 0). rewrite <- Zle_Qle. lia. }
    fold X in H3err.
    set (vr := uval cr er) in *. set (v2 := uval c2 e2) in *.
    set (v3 := uval c3 e3) in *. set (Xm := X ^ Zpos m) in *.
    set (k := inject_Z (Zpos m - 1)) in *.
    clearbody vr v2 v3 Xm k.
    apply Qabs_Qle_condition in Hrerr, H2err, H3err.
    apply Qabs_Qle_condition.
    clear - Hrerr H2err H3err HX HXm Hr1 H21 H H0 Hw Hm.
    pose proof (square_error vr Xm (k * w) ltac:(lra) HXm Hrerr) as Hsq.
    assert (Hd : - (2 * (k * w) + w) <= v2 - Xm * Xm <= 2 * (k * w) + w) by lra.
    pose proof (scale_error v2 (Xm * Xm) X _ HX Hd) as Hsc.
    split; lra.
  - (* n = 2m *)
    destruct IH as (cr & er & Hr & Hr1 & Hrerr).
    cbn [pow_uint]. rewrite Hr. cbn [bind].
    destruct (mul_unit_interval cr er cr er Hr1 Hr1)
      as (c2 & e2 & H2 & _ & H21 & H2err).
    exists c2, e2. split; [assumption|]. split; [assumption|].
    rewrite Qpower_xO.
    pose proof (Qpower_unit_interval X m HX) as HXm.
    pose proof (uval_nonneg cr er).
    replace (Zpos m~0 - 1)%Z with (2 * (Zpos m - 1) + 1)%Z by lia.
    rewrite inject_Z_plus, inject_Z_mult.
    change (inject_Z 2) with 2. change (inject_Z 1) with 1.
    assert (Hm : 0 <= inject_Z (Zpos m - 1)).
    { change 0 with (inject_Z 0). rewrite <- Zle_Qle. lia. }
    set (vr := uval cr er) in *. set (v2 := uval c2 e2) in *.
    set (Xm := X ^ Zpos m) in *.
    set (k := inject_Z (Zpos m - 1)) in *.
    clearbody vr v2 Xm k.
    apply Qabs_Qle_condition in Hrerr, H2err.
    apply Qabs_Qle_condition.
    clear - Hrerr H2err HX HXm Hr1 H21 H Hw Hm.
    pose proof (square_error vr Xm (k * w) ltac:(lra) HXm Hrerr) as Hsq.
    split; lra.
  - (* n = 1 *)
    exists c, e. split; [reflexivity|]. split; [assumption|].
    change (X ^ 1) with X. unfold X.
    setoid_replace (uval c e - uval c e) with 0 by ring.
    change (inject_Z (1 - 1)) with 0. rewrite Qmult_0_l. apply Qle_refl.
Qed.

End Work.

End PowFacts.

(* ===================================================================== *)
(** ** The operations of the script at its context *)
(* ===================================================================== *)

Module CtxFacts.

Import Dec DecFacts FixFacts ValueFacts PowFacts Plinko.

Local Open Scope Q_scope.

Lemma ctx_prec : prec ctx = 50%Z. Proof. reflexivity. Qed.
Lemma ctx_Emax : Emax ctx = 999999%Z. Proof. reflexivity. Qed.
Lemma ctx_Emin : Emin ctx = (-999999)%Z. Proof. reflexivity. Qed.
Lemma ctx_Etiny : Etiny ctx = (-1000048)%Z. Proof. reflexivity. Qed.

(** [_fix] at the script's context, for a value of at most 10^m. *)
Lemma fix_ctx_value s c e m :
  (0 <= m <= 999999)%Z -> uval c e <= p10 m ->
  exists c' e',
    fix_finite ctx s c e = Ok (Finite s c' e') /\
    canonical ctx c' e' /\
    uval c' e' <= p10 m /\
    Qabs (uval c' e' - uval c e) <= (1 # 2) * p10 (m - 49).
Proof.
  intros Hm Hv.
  destruct (fix_finite_value ctx s c e m) as (c' & e' & H1 & H2 & H3 & H4);
    try assumption; try (cbn; lia).
  exists c', e'. repeat split; try assumption.
  rewrite ctx_prec, ctx_Etiny in H4.
  replace (Z.max (m + 1 - 50) (-1000048)) with (m - 49)%Z in H4 by lia.
  exact H4.
Qed.

(** A nonzero coefficient at an exponent of at least Etiny is not rounded
    to zero. *)
Lemma fix_ctx_nonzero s c e m s' c' e' :
  (0 <= m <= 999999)%Z -> uval c e <= p10 m ->
  c <> 0%N -> (-1000048 <= e)%Z ->
  fix_finite ctx s c e = Ok (Finite s' c' e') -> c' <> 0%N.
Proof.
  intros Hm Hv Hnz He Hfix.
  pose proof (uval_le_p10_exp c e m Hnz Hv) as Hem.
  pose proof (proj2 (uval_le_p10 c e m Hem) Hv) as Hc.
  destruct (fix_finite_spec ctx s c e m) as (c1 & e1 & H1 & _ & _ & _ & Hee & [_ Hhi] & _);
    try assumption; try (cbn; lia).
  rewrite H1 in Hfix. injection Hfix as _ <- <-.
  intros ->. rewrite N.mul_0_l in Hhi.
  rewrite ctx_prec, ctx_Etiny in Hhi.
  pose proof (ndigits_lower c Hnz) as Hlow.
  pose proof (ndigits_pos c) as Hpos.
  destruct (Z_le_gt_dec (Z.max (ndigits c + e - 50) (-1000048)) e) as [Hle|Hgt].
  - rewrite pow10_nonpos in Hhi by lia. lia.
  - replace (Z.max (ndigits c + e - 50) (-1000048) - e)%Z
      with (ndigits c - 50)%Z in Hhi by lia.
    pose proof (pow10_le_mono (ndigits c - 50) (ndigits c - 1) ltac:(lia)). lia.
Qed.

(** [Decimal('1') - p] for 0 < p < 1. *)
Lemma sub_one_value c e :
  0 < uval c e -> uval c e < 1 ->
  exists cq eq,
    sub ctx one (Finite false c e) = Ok (Finite false cq eq) /\
    canonical ctx cq eq /\
    uval cq eq <= 1 /\
    Qabs (uval cq eq - (1 - uval c e)) <= (1 # 2) * p10 (-49) /\
    ((-1000048 <= e)%Z -> cq <> 0%N).
Proof.
  intros Hpos Hlt.
  assert (Hnz : c <> 0%N).
  { intros ->. rewrite uval_0 in Hpos. lra. }
  assert (He : (e <= 0)%Z).
  { apply (uval_le_p10_exp c e 0 Hnz). change (p10 0) with 1. lra. }
  assert (Hc : (c < pow10 (- e))%N).
  { destruct (N.lt_ge_cases c (pow10 (- e))) as [|Hge]; [assumption|exfalso].
    apply injN_le in Hge. rewrite p10_pow10 in Hge by lia.
    unfold uval in Hlt. pose proof (p10_pos e).
    assert (p10 (- e) * p10 e == 1).
    { rewrite <- p10_add. replace (- e + e)%Z with 0%Z by lia. reflexivity. }
    nra. }
  unfold sub, one. cbn [copy_negate negb add].
  replace (Z.min 0 e) with e by lia.
  change ((1 =? 0)%N) with false. cbn [andb].
  unfold scaled.
  replace (e - e)%Z with 0%Z by lia. rewrite pow10_0, N.mul_1_r, N.mul_1_l.
  replace (0 - e)%Z with (- e)%Z by lia.
  set (v := (Z.of_N (pow10 (- e)) + - Z.of_N c)%Z).
  assert (Hv : (0 < v)%Z) by (unfold v; lia).
  destruct (Z.eqb_spec v 0) as [|_]; [lia|].
  destruct (Z.ltb_spec v 0) as [|_]; [lia|].
  assert (Habs : Z.abs_N v = (pow10 (- e) - c)%N) by (unfold v; lia).
  rewrite Habs.
  assert (Hval : uval (pow10 (- e) - c) e == 1 - uval c e).
  { unfold uval. rewrite N2Z.inj_sub by lia.
    unfold Z.sub. rewrite inject_Z_plus, inject_Z_opp.
    rewrite p10_pow10 by lia.
    assert (p10 (- e) * p10 e == 1).
    { rewrite <- p10_add. replace (- e + e)%Z with 0%Z by lia. reflexivity. }
    set (a := p10 (- e)) in *. set (b := p10 e) in *.
    set (x := inject_Z (Z.of_N c)). clearbody a b x.
    setoid_replace ((a + - x) * b) with (a * b - x * b) by ring.
    rewrite H. reflexivity. }
  assert (Hle : uval (pow10 (- e) - c) e <= p10 0).
  { rewrite Hval. change (p10 0) with 1. lra. }
  destruct (fix_ctx_value false _ _ 0%Z ltac:(lia) Hle) as (cq & eq & H1 & H2 & H3 & H4).
  exists cq, eq. split; [assumption|]. split; [assumption|].
  split; [exact H3|]. split.
  { rewrite Hval in H4. exact H4. }
  intros HeT. eapply fix_ctx_nonzero; [| exact Hle | | exact HeT | exact H1]; lia.
Qed.

(** [x ** n] for 0 < x <= 1 and a Python int n >= 0: no exception, a
    canonical result in [0, 1], within 10^-49 of the exact power. *)
Lemma pow_value c e (n : Z) :
  0 < uval c e -> uval c e <= 1 -> (0 <= n)%Z ->
  exists c' e',
    pow ctx (Finite false c e) n = Ok (Finite false c' e') /\
    canonical ctx c' e' /\
    uval c' e' <= 1 /\
    Qabs (uval c' e' - uval c e ^ n) <= p10 (-49).
Proof.
  intros Hpos Hle Hn.
  assert (Hnz : c <> 0%N).
  { intros ->. rewrite uval_0 in Hpos. lra. }
  assert (Hp49 : 0 < p10 (-49)) by apply p10_pos.
  unfold pow. cbn [andb].
  destruct (N.eqb_spec c 0) as [|_]; [contradiction|].
  destruct (Z.eqb_spec n 0) as [->|Hn0].
  - (* x ** 0 = 1 *)
    exists 1%N, 0%Z. split; [reflexivity|].
    split.
    { unfold canonical, Etop. change (ndigits 1) with 1%Z.
      rewrite ctx_prec, ctx_Etiny, ctx_Emax. cbn [N.eqb]. lia. }
    change (uval c e ^ 0) with 1. change (uval 1 0) with (1 * 1).
    split; [lra|].
    apply Qabs_same; [ring|lra].
  - destruct (is_abs_one c e) eqn:Hone.
    + (* 1.00 ** n *)
      unfold is_abs_one in Hone. apply andb_prop in Hone as [He Hc].
      apply Z.leb_le in He. apply N.eqb_eq in Hc.
      destruct (Z.ltb_spec n 0) as [|_]; [lia|].
      set (shift := Z.min (n * - e) (prec ctx - 1)).
      assert (Hs : (0 <= shift <= 49)%Z).
      { unfold shift. rewrite ctx_prec. nia. }
      exists (pow10 shift), (- shift)%Z. split; [reflexivity|].
      split.
      { unfold canonical. pose proof (pow10_pos shift).
        destruct (N.eqb_spec (pow10 shift) 0); [lia|].
        rewrite ndigits_pow10 by lia. unfold Etop.
        rewrite ctx_prec, ctx_Etiny, ctx_Emax. lia. }
      rewrite uval_pow10 by lia.
      assert (HX : uval c e == 1).
      { rewrite Hc. replace e with (- - e)%Z at 2 by lia. apply uval_pow10. lia. }
      rewrite HX, Qpower_1. split; [lra|].
      apply Qabs_same; [reflexivity|lra].
    + (* the general case: the loop, then the final rounding *)
      destruct n as [|m|m]; try lia.
      set (d := ndigits (Z.abs_N (Zpos m))).
      set (wctx := mkContext (prec ctx + d + 2) (Emax ctx) (Emin ctx)).
      pose proof (ndigits_pos (Z.abs_N (Zpos m))) as Hd. fold d in Hd.
      assert (Hwp : prec wctx = (52 + d)%Z)
        by (unfold wctx; cbn [prec]; rewrite ctx_prec; lia).
      assert (Hwt : Etiny wctx = (- 1000050 - d)%Z)
        by (unfold Etiny; rewrite Hwp; unfold wctx; cbn [Emin];
            rewrite ctx_Emin; lia).
      assert (Hwmax : Emax wctx = 999999%Z) by reflexivity.
      assert (Hwmin : Emin wctx = (-999999)%Z) by reflexivity.
      destruct (pow_uint_value wctx ltac:(lia) ltac:(lia)
                  ltac:(lia) ltac:(lia) c e Hle m)
        as (c1 & e1 & Hloop & H1le & H1err).
      rewrite Hloop. cbn [bind set_sign fix_].
      assert (Hv1 : uval c1 e1 <= p10 0) by exact H1le.
      destruct (fix_ctx_value false c1 e1 0%Z ltac:(lia) Hv1)
        as (c' & e' & Hfix & Hcan & Hle' & Herr).
      exists c', e'. split; [assumption|]. split; [assumption|].
      split; [exact Hle'|].
      (* the loop's error is below half a unit of the 51st place *)
      assert (Hw : inject_Z (Zpos m - 1) *
                   ((1 # 2) * p10 (Z.max (1 - prec wctx) (Etiny wctx)))
                   <= (1 # 2) * p10 (-51)).
      { replace (Z.max (1 - prec wctx) (Etiny wctx)) with (- 51 - d)%Z
          by lia.
        assert (Hmd : inject_Z (Zpos m - 1) <= p10 d).
        { rewrite <- p10_pow10 by lia. rewrite <- Zle_Qle.
          pose proof (ndigits_upper (Z.abs_N (Zpos m))) as Hu. fold d in Hu. lia. }
        assert (Hsplit : p10 (-51) == p10 d * p10 (-51 - d)).
        { rewrite <- p10_add. replace (d + (-51 - d))%Z with (-51)%Z by lia.
          reflexivity. }
        rewrite Hsplit. pose proof (p10_pos (-51 - d)).
        assert (0 <= inject_Z (Zpos m - 1)).
        { change 0 with (inject_Z 0). rewrite <- Zle_Qle. lia. }
        nra. }
      assert (H51 : p10 (-51) <= p10 (-49)) by (apply p10_le; lia).
      change (0 - 49)%Z with (-49)%Z in Herr.
      set (a := uval c' e') in *. set (b := uval c1 e1) in *.
      set (x := uval c e ^ Zpos m) in *.
      set (t := inject_Z (Zpos m - 1) * _) in *.
      clearbody a b x t.
      apply Qabs_Qle_condition in Herr, H1err.
      apply Qabs_Qle_condition.
      clear - Herr H1err Hw H51 Hp49. split; lra.
Qed.

End CtxFacts.

(* ===================================================================== *)
(** ** Binomial coefficients *)
(* ===================================================================== *)

Module CombFacts.

Import Dec DecFacts ValueFacts PowFacts Spec.

Lemma binom_0_r n : binom n 0 = 1%N.
Proof. destruct n; reflexivity. Qed.

Lemma binom_succ n k : binom (S n) (S k) = (binom n k + binom n (S k))%N.
Proof. reflexivity. Qed.

Lemma binom_gt n : forall k, (n < k)%nat -> binom n k = 0%N.
Proof.
  induction n as [|n IH]; intros [|k] H; try lia; try reflexivity.
  rewrite binom_succ, !IH by lia. reflexivity.
Qed.

Lemma binom_diag n : binom n n = 1%N.
Proof.
  induction n as [|n IH]; [reflexivity|].
  rewrite binom_succ, IH, binom_gt by lia. reflexivity.
Qed.

(** (k + 1) C(n, k + 1) = (n - k) C(n, k) *)
Lemma binom_absorb n : forall k,
  (binom n (S k) * N.of_nat (S k) = binom n k * (N.of_nat n - N.of_nat k))%N.
Proof.
  induction n as [|n IH]; intros k.
  - cbn [binom]. destruct k; cbn; lia.
  - destruct k as [|k].
    + rewrite binom_succ, !binom_0_r.
      pose proof (IH 0%nat) as H0. rewrite binom_0_r in H0. lia.
    + rewrite (binom_succ n (S k)), (binom_succ n k).
      pose proof (IH k) as Hk. pose proof (IH (S k)) as HSk.
      destruct (le_lt_dec (S k) n) as [Hle|Hgt].
      * nia.
      * rewrite (binom_gt n (S (S k))) in * by lia.
        destruct (Nat.eq_dec k n) as [->|Hne].
        -- rewrite binom_diag, binom_gt in * by lia. lia.
        -- rewrite (binom_gt n (S k)), (binom_gt n k) in * by lia. lia.
Qed.

(** The multiplicative algorithm computes Pascal's triangle. *)
Lemma comb_mul_binom n k : comb_mul (N.of_nat n) k = binom n k.
Proof.
  induction k as [|k IH].
  - cbn [comb_mul]. symmetry. apply binom_0_r.
  - cbn [comb_mul]. rewrite IH.
    rewrite <- binom_absorb. apply N.div_mul. lia.
Qed.

Lemma comb_binom (n k : Z) :
  0 <= k <= n ->
  comb n k = Ok (Z.of_N (binom (Z.to_nat n) (Z.to_nat k))).
Proof.
  intros H. unfold comb.
  destruct (Z.ltb_spec n 0); [lia|]. destruct (Z.ltb_spec k 0); [lia|].
  destruct (Z.ltb_spec n k); [lia|]. cbn [orb].
  rewrite <- comb_mul_binom, Z_nat_N. reflexivity.
Qed.

(** C(n, k) k! (n - k)! = n!: the coefficient is the exact integer
    n! / (k! (n - k)!). *)
Lemma binom_fact n : forall k, (k <= n)%nat ->
  (binom n k * fact k * fact (n - k) = fact n)%N.
Proof.
  induction n as [|n IH]; intros k Hk.
  - assert (k = 0%nat) by lia. subst k. reflexivity.
  - destruct k as [|k].
    + rewrite binom_0_r. cbn [Nat.sub]. change (fact 0) with 1%N. ring.
    + rewrite binom_succ.
      replace (S n - S k)%nat with (n - k)%nat by lia.
      destruct (Nat.eq_dec k n) as [->|Hne].
      * rewrite (binom_gt n (S n)), binom_diag by lia.
        replace (n - n)%nat with 0%nat by lia.
        pose proof (IH n ltac:(lia)) as H1.
        rewrite binom_diag in H1. replace (n - n)%nat with 0%nat in H1 by lia.
        cbn [fact] in *. lia.
      * pose proof (IH k ltac:(lia)) as H1.
        pose proof (IH (S k) ltac:(lia)) as H2.
        replace (n - k)%nat with (S (n - S k)) in * by lia.
        cbn [fact] in *.
        set (a := binom n k) in *. set (b := binom n (S k)) in *.
        set (fk := fact k) in *. set (fr := fact (n - S k)) in *.
        set (fn := fact n) in *.
        assert (Hr : (N.of_nat (S (n - S k)) = N.of_nat n - N.of_nat k)%N) by lia.
        rewrite Hr in *. clearbody a b fk fr fn. nia.
Qed.

Lemma binom_le_pow2 n : forall k, (binom n k <= 2 ^ N.of_nat n)%N.
Proof.
  induction n as [|n IH]; intros [|k].
  - cbn. lia.
  - cbn. lia.
  - rewrite binom_0_r. pose proof (N.pow_nonzero 2 (N.of_nat (S n))). lia.
  - rewrite binom_succ, Nat2N.inj_succ, N.pow_succ_r'.
    pose proof (IH k). pose proof (IH (S k)). lia.
Qed.

Lemma pow2_lt_pow10 n : (1 <= n)%nat -> (2 * 2 ^ N.of_nat n <= 10 ^ N.of_nat n)%N.
Proof.
  induction n as [|n IH]; [lia|]. intros _.
  destruct n as [|n]; [cbn; lia|].
  specialize (IH ltac:(lia)).
  rewrite (Nat2N.inj_succ (S n)), !N.pow_succ_r'. lia.
Qed.

Lemma binom_lt_pow10 n k : (1 <= n)%nat -> (binom n k < pow10 (Z.of_nat n))%N.
Proof.
  intros Hn. unfold pow10. rewrite <- nat_N_Z, N2Z.id.
  pose proof (binom_le_pow2 n k). pose proof (pow2_lt_pow10 n Hn).
  pose proof (N.pow_nonzero 2 (N.of_nat n)). lia.
Qed.

Lemma binom_pos n k : (k <= n)%nat -> (1 <= binom n k)%N.
Proof.
  revert k. induction n as [|n IH]; intros [|k] H; try (cbn; lia).
  rewrite binom_succ. destruct (Nat.eq_dec k n) as [->|].
  - rewrite binom_diag. lia.
  - pose proof (IH k ltac:(lia)). lia.
Qed.

(* ===================================================================== *)
(** ** The binomial theorem over the rationals *)
(* ===================================================================== *)

Local Open Scope Q_scope.

Lemma Qsum_ext f g n :
  (forall k, (k < n)%nat -> f k == g k) -> Qsum f n == Qsum g n.
Proof.
  induction n as [|n IH]; intros H; [reflexivity|].
  cbn [Qsum]. rewrite IH, H by (try lia; intros; apply H; lia). reflexivity.
Qed.

Lemma Qsum_plus f g n :
  Qsum (fun k => f k + g k) n == Qsum f n + Qsum g n.
Proof.
  induction n as [|n IH]; cbn [Qsum]; [ring|]. rewrite IH. ring.
Qed.

Lemma Qsum_scale a f n : Qsum (fun k => a * f k) n == a * Qsum f n.
Proof.
  induction n as [|n IH]; cbn [Qsum]; [ring|]. rewrite IH. ring.
Qed.

Lemma Qsum_shift f n : Qsum f (S n) == f 0%nat + Qsum (fun k => f (S k)) n.
Proof.
  induction n as [|n IH]; [cbn [Qsum]; ring|].
  change (Qsum f (S (S n))) with (Qsum f (S n) + f (S n)).
  rewrite IH. cbn [Qsum]. ring.
Qed.

Lemma Qsum_le f g n :
  (forall k, (k < n)%nat -> f k <= g k) -> Qsum f n <= Qsum g n.
Proof.
  induction n as [|n IH]; intros H; cbn [Qsum]; [lra|].
  pose proof (IH ltac:(intros; apply H; lia)). pose proof (H n ltac:(lia)). lra.
Qed.

Lemma Qsum_abs f n : Qabs (Qsum f n) <= Qsum (fun k => Qabs (f k)) n.
Proof.
  induction n as [|n IH]; cbn [Qsum]; [simpl; lra|].
  eapply Qle_trans; [apply Qabs_triangle|]. lra.
Qed.

Lemma Qsum_minus f g n :
  Qsum (fun k => f k - g k) n == Qsum f n - Qsum g n.
Proof.
  induction n as [|n IH]; cbn [Qsum]; [ring|]. rewrite IH. ring.
Qed.

Section Binomial.

Variables a b : Q.

Let T (n k : nat) : Q :=
  inject_Z (Z.of_N (binom n k)) * a ^ Z.of_nat k * b ^ Z.of_nat (n - k).

Lemma term_zero n : T (S n) 0 == b * T n 0.
Proof.
  unfold T. rewrite !binom_0_r.
  replace (S n - 0)%nat with (S n) by lia.
  replace (n - 0)%nat with n by lia.
  rewrite Qpower_succ. ring.
Qed.

Lemma term_succ n k : T (S n) (S k) == a * T n k + b * T n (S k).
Proof.
  unfold T. rewrite binom_succ, N2Z.inj_add, inject_Z_plus.
  replace (S n - S k)%nat with (n - k)%nat by lia.
  rewrite (Qpower_succ a k).
  destruct (le_lt_dec (S k) n) as [Hle|Hgt].
  - replace (n - k)%nat with (S (n - S k)) by lia.
    rewrite (Qpower_succ b (n - S k)). ring.
  - rewrite (binom_gt n (S k)) by lia. change (inject_Z (Z.of_N 0)) with 0. ring.
Qed.

Lemma term_beyond n : T n (S n) == 0.
Proof.
  unfold T. rewrite binom_gt by lia. change (inject_Z (Z.of_N 0)) with 0. ring.
Qed.

(** Sum over k = 0..n of C(n,k) a^k b^(n-k) = (a + b)^n. *)
Lemma binomial_theorem n : Qsum (T n) (S n) == (a + b) ^ Z.of_nat n.
Proof.
  induction n as [|n IH].
  - unfold T. cbn. ring.
  - rewrite Qsum_shift.
    rewrite (Qsum_ext _ (fun k => a * T n k + b * T n (S k)))
      by (intros; apply term_succ).
    rewrite Qsum_plus, !Qsum_scale.
    pose proof (Qsum_shift (T n) (S n)) as Hs.
    change (Qsum (T n) (S (S n))) with (Qsum (T n) (S n) + T n (S n)) in Hs.
    rewrite term_beyond in Hs.
    rewrite term_zero, Qpower_succ, <- IH.
    set (S1 := Qsum (T n) (S n)) in *.
    set (S2 := Qsum (fun k => T n (S k)) (S n)) in *.
    set (t0 := T n 0%nat) in *. clearbody S1 S2 t0.
    assert (S2 == S1 - t0) by lra.
    rewrite H. ring.
Qed.

End Binomial.

(** The exact binomial probabilities of a row sum to 1. *)
Lemma exact_probability_sum n p :
  Qsum (fun k => exact_probability n k p) (S n) == 1.
Proof.
  unfold exact_probability.
  rewrite (binomial_theorem p (1 - p) n).
  setoid_replace (p + (1 - p)) with 1 by ring. apply Qpower_1.
Qed.

(** Sum over k of C(n, k) = 2^n. *)
Lemma binom_sum n :
  Qsum (fun k => inject_Z (Z.of_N (binom n k))) (S n) == 2 ^ Z.of_nat n.
Proof.
  rewrite <- (Qsum_ext (fun k => inject_Z (Z.of_N (binom n k))
                                 * 1 ^ Z.of_nat k * 1 ^ Z.of_nat (n - k))).
  - rewrite (binomial_theorem 1 1 n). reflexivity.
  - intros k _. rewrite !Qpower_1. ring.
Qed.

End CombFacts.

(* ===================================================================== *)
(** ** Accuracy of binomial_probability *)
(* ===================================================================== *)

Module Accuracy.

Import Dec DecFacts FixFacts ValueFacts PowFacts CtxFacts CombFacts Plinko Spec.

Local Open Scope Q_scope.

(** Powers of two nearby bases of [0, 1]. *)
Lemma power_base_error (a b d : Q) (j : nat) :
  0 <= a <= 1 -> 0 <= b <= 1 -> - d <= a - b <= d ->
  - (inject_Z (Z.of_nat j) * d) <= a ^ Z.of_nat j - b ^ Z.of_nat j
    <= inject_Z (Z.of_nat j) * d.
Proof.
  intros Ha Hb Hd. assert (Hd0 : 0 <= d) by lra.
  induction j as [|j IH].
  - change (Z.of_nat 0) with 0%Z. change (a ^ 0) with 1. change (b ^ 0) with 1.
    change (inject_Z 0) with 0. lra.
  - rewrite !Qpower_succ, Nat2Z.inj_succ. unfold Z.succ.
    rewrite inject_Z_plus. change (inject_Z 1) with 1.
    pose proof (Qpower_nat_unit_interval a j Ha) as Haj.
    pose proof (Qpower_nat_unit_interval b j Hb) as Hbj.
    assert (Hj : 0 <= inject_Z (Z.of_nat j)).
    { change 0 with (inject_Z 0). rewrite <- Zle_Qle. lia. }
    set (aj := a ^ Z.of_nat j) in *. set (bj := b ^ Z.of_nat j) in *.
    set (J := inject_Z (Z.of_nat j)) in *. clearbody aj bj J.
    assert (0 <= J * d) by (apply Qmult_le_0_compat; lra).
    pose proof (scale_error aj bj a (J * d) Ha IH) as H1.
    pose proof (scale_error a b bj d Hbj Hd) as H2.
    split; lra.
Qed.

(** The error of C * a^ * b^ rounded twice, from the errors of the
    factors. *)
Lemma product_error (Bq A Bx va vb vt vr P D : Q) :
  0 <= Bq -> 0 <= A <= 1 -> 0 <= vb <= 1 -> 0 <= P ->
  - P <= va - A <= P ->
  - D <= vb - Bx <= D ->
  - (5 * Bq * P) <= vt - Bq * va <= 5 * Bq * P ->
  - (5 * Bq * P) <= vr - vt * vb <= 5 * Bq * P ->
  - (Bq * (11 * P + D)) <= vr - Bq * A * Bx <= Bq * (11 * P + D).
Proof.
  intros HB HA Hvb HP Hva HD Hvt Hvr.
  assert (HD0 : 0 <= D) by lra.
  assert (0 <= Bq * P) by (apply Qmult_le_0_compat; lra).
  assert (0 <= Bq * (P - (va - A))) by (apply Qmult_le_0_compat; lra).
  assert (0 <= Bq * (P + (va - A))) by (apply Qmult_le_0_compat; lra).
  assert (Ht : - (6 * (Bq * P)) <= vt - Bq * A <= 6 * (Bq * P)) by (split; lra).
  pose proof (scale_error vt (Bq * A) vb _ Hvb Ht) as Hs.
  assert (0 <= Bq * A) by (apply Qmult_le_0_compat; lra).
  assert (0 <= Bq * (1 - A)) by (apply Qmult_le_0_compat; lra).
  assert (0 <= (Bq * A) * (D - (vb - Bx))) by (apply Qmult_le_0_compat; lra).
  assert (0 <= (Bq * A) * (D + (vb - Bx))) by (apply Qmult_le_0_compat; lra).
  assert (0 <= (Bq * (1 - A)) * D) by (apply Qmult_le_0_compat; lra).
  split; lra.
Qed.

Lemma of_int_N (b : N) : of_int (Z.of_N b) = Finite false b 0.
Proof.
  unfold of_int. destruct (Z.ltb_spec (Z.of_N b) 0); [lia|].
  rewrite Zabs2N.id. reflexivity.
Qed.

(** [binomial_probability] on a valid call: no exception, and a result
    within C(n,k) (n + 12) 10^-49 of the exact probability. *)
Lemma binomial_probability_accuracy (rows k : Z) c e :
  (0 <= k <= rows)%Z -> (rows <= 999999)%Z ->
  0 < uval c e -> uval c e < 1 -> (-1000048 <= e)%Z ->
  exists c' e',
    binomial_probability rows k (Finite false c e) = Ok (Finite false c' e') /\
    canonical ctx c' e' /\
    Qabs (uval c' e' - exact_probability (Z.to_nat rows) (Z.to_nat k) (uval c e))
      <= inject_Z (Z.of_N (binom (Z.to_nat rows) (Z.to_nat k)))
         * (inject_Z (rows + 12) * p10 (-49)).
Proof.
  intros Hk Hrows Hpos Hlt He.
  set (n := Z.to_nat rows). set (j := Z.to_nat k).
  set (B := binom n j). set (X := uval c e).
  unfold binomial_probability.
  rewrite (comb_binom rows k Hk). cbn [bind]. fold n j B.
  rewrite of_int_N.
  (* p ** k *)
  destruct (pow_value c e k Hpos ltac:(lra) ltac:(lia))
    as (ca & ea & Hpa & _ & Hale & Haerr).
  rewrite Hpa. cbn [bind].
  (* 1 - p *)
  destruct (sub_one_value c e Hpos Hlt)
    as (cq & eq & Hsq & _ & Hqle & Hqerr & Hqnz).
  rewrite Hsq. cbn [bind]. specialize (Hqnz He).
  (* (1 - p) ** (n - k) *)
  destruct (pow_value cq eq (rows - k) (uval_pos cq eq Hqnz) Hqle ltac:(lia))
    as (cb & eb & Hpb & _ & Hble & Hberr).
  rewrite Hpb. cbn [bind].
  (* combinations * p_success *)
  set (nd := ndigits B).
  assert (HB1 : (1 <= B)%N) by (apply binom_pos; lia).
  assert (Hnd : (1 <= nd <= 999999)%Z).
  { split; [apply ndigits_pos|].
    destruct (Z.eq_dec rows 0) as [Hr0|Hr0].
    - assert (Hnd1 : nd = 1%Z).
      { unfold nd, B, n, j. replace k with 0%Z by lia. rewrite Hr0. reflexivity. }
      lia.
    - assert (Hlt10 : (B < pow10 (Z.of_nat n))%N) by (apply binom_lt_pow10; lia).
      assert (nd <= Z.of_nat n)%Z by (apply ndigits_le; [lia|exact Hlt10]).
      lia. }
  set (Bq := inject_Z (Z.of_N B)).
  assert (HBq : 1 <= Bq) by (apply injN_pos; lia).
  assert (HBnd : uval B 0 <= p10 nd).
  { apply uval_le_p10; [lia|]. replace (nd - 0)%Z with nd by lia.
    pose proof (ndigits_upper B). fold nd in H. lia. }
  assert (HBlow : p10 (nd - 1) <= Bq).
  { rewrite <- p10_pow10 by lia. apply injN_le. apply ndigits_lower. lia. }
  assert (HuB : uval B 0 == Bq) by (unfold uval, Bq; change (p10 0) with 1; ring).
  pose proof (uval_nonneg ca ea) as Ha0.
  pose proof (uval_nonneg cb eb) as Hb0.
  cbn [mul xorb].
  assert (Hv1 : uval (B * ca) (0 + ea) <= p10 nd).
  { rewrite uval_mul. rewrite HuB in *. nra. }
  destruct (fix_ctx_value false _ _ nd ltac:(lia) Hv1)
    as (ct & et & Hft & _ & Htle & Hterr).
  rewrite Hft. cbn [bind mul xorb].
  (* ... * p_failure *)
  pose proof (uval_nonneg ct et) as Ht0.
  assert (Hv2 : uval (ct * cb) (et + eb) <= p10 nd).
  { rewrite uval_mul. nra. }
  destruct (fix_ctx_value false _ _ nd ltac:(lia) Hv2)
    as (cr & er & Hfr & Hcan & _ & Hrerr).
  exists cr, er. split; [exact Hfr|]. split; [exact Hcan|].
  (* the error *)
  rewrite uval_mul in Hterr, Hrerr. rewrite HuB in Hterr.
  assert (Hhalf : (1 # 2) * p10 (nd - 49) <= 5 * Bq * p10 (-49)).
  { assert (Hs : p10 (nd - 49) == p10 (nd - 1) * (10 * p10 (-49))).
    { rewrite <- p10_succ, <- p10_add. replace (nd - 1 + (-49 + 1))%Z with (nd - 49)%Z by lia.
      reflexivity. }
    rewrite Hs. pose proof (p10_pos (-49)). pose proof (p10_pos (nd - 1)). nra. }
  unfold exact_probability. fold n j B Bq X.
  assert (Hjk : Z.of_nat j = k) by (unfold j; lia).
  assert (Hnk : Z.of_nat (n - j) = (rows - k)%Z) by (unfold n, j; lia).
  rewrite Hjk.
  assert (HX : 0 <= X <= 1) by (unfold X; lra).
  assert (HX1 : 0 <= 1 - X <= 1) by lra.
  pose proof (uval_nonneg cq eq) as Hq0.
  apply Qabs_Qle_condition in Hqerr.
  pose proof (power_base_error (uval cq eq) (1 - X) _ (n - j)
                ltac:(lra) HX1 Hqerr) as Hbase.
  rewrite Hnk in *.
  assert (HA : 0 <= X ^ k <= 1).
  { rewrite <- Hjk. apply Qpower_nat_unit_interval. exact HX. }
  assert (Hrk : 0 <= inject_Z (rows - k) <= inject_Z rows).
  { split; [change 0 with (inject_Z 0)|]; rewrite <- Zle_Qle; lia. }
  replace (rows + 12)%Z with (12 + rows)%Z by lia.
  rewrite inject_Z_plus. change (inject_Z 12) with 12.
  apply Qabs_Qle_condition in Haerr, Hberr, Hterr, Hrerr.
  fold X in Haerr.
  pose proof (p10_pos (-49)) as HP.
  set (P := p10 (-49)) in *. set (A := X ^ k) in *.
  set (Bx := (1 - X) ^ (rows - k)) in *.
  set (va := uval ca ea) in *. set (vb := uval cb eb) in *.
  set (vt := uval ct et) in *. set (vr := uval cr er) in *.
  set (vqp := uval cq eq ^ (rows - k)) in *.
  set (J := inject_Z (rows - k)) in *. set (R := inject_Z rows) in *.
  set (H49 := (1 # 2) * p10 (nd - 49)) in *.
  clearbody P A Bx va vb vt vr vqp J R H49 Bq.
  assert (HJP : 0 <= J * ((1 # 2) * P)) by (apply Qmult_le_0_compat; lra).
  assert (HD : - (P + J * ((1 # 2) * P)) <= vb - Bx <= P + J * ((1 # 2) * P))
    by (split; lra).
  pose proof (product_error Bq A Bx va vb vt vr P _
                ltac:(lra) HA ltac:(lra) ltac:(lra) Haerr HD
                ltac:(split; lra) ltac:(split; lra)) as Hfin.
  assert (0 <= (R - J) * P) by (apply Qmult_le_0_compat; lra).
  assert (0 <= J * P) by (apply Qmult_le_0_compat; lra).
  assert (Hbound : 11 * P + (P + J * ((1 # 2) * P)) <= (12 + R) * P) by lra.
  assert (0 <= Bq * ((12 + R) * P - (11 * P + (P + J * ((1 # 2) * P)))))
    by (apply Qmult_le_0_compat; lra).
  apply Qabs_Qle_condition. split; lra.
Qed.

End Accuracy.

(* ===================================================================== *)
(** ** Biases of the open unit interval *)
(* ===================================================================== *)

Module BiasFacts.

Import Dec DecFacts FixFacts ValueFacts PowFacts CtxFacts CombFacts Plinko Spec.

Lemma value_finite c e : value (Finite false c e) = uval c e.
Proof. reflexivity. Qed.

(** A decimal with a positive value is a finite, positive triple. *)
Lemma positive_value_inv d :
  (0 < value d)%Q -> exists c e, d = Finite false c e /\ c <> 0%N.
Proof.
  destruct d as [[|] c e|s]; cbn [value]; intros H.
  - exfalso. pose proof (uval_nonneg c e) as Hn. unfold uval, p10 in Hn. lra.
  - exists c, e. split; [reflexivity|]. intros ->.
    change (0 < uval 0 e)%Q in H. rewrite uval_0 in H. lra.
  - lra.
Qed.

Lemma canonical_digits c e : canonical ctx c e -> ndigits c <= 50.
Proof.
  unfold canonical. destruct (N.eqb_spec c 0) as [->|_].
  - intros _. change (ndigits 0) with 1. lia.
  - rewrite ctx_prec. lia.
Qed.

(* ------------------------------------------------------------------- *)
(** *** The bias 0.99...9 *)

Section Nines.

Variable K : Z.
Hypothesis HK : 1 <= K.

Lemma nines_coeff : (1 <= pow10 K - 1)%N.
Proof.
  pose proof (pow10_lt_mono 0 K ltac:(lia) ltac:(lia)) as H.
  rewrite pow10_0 in H. lia.
Qed.

Lemma nines_value : (value (nines K) == 1 - p10 (- K))%Q.
Proof.
  unfold nines. rewrite value_finite. unfold uval.
  pose proof nines_coeff as Hc.
  rewrite N2Z.inj_sub by lia. unfold Z.sub.
  rewrite inject_Z_plus, inject_Z_opp, p10_pow10 by lia.
  change (inject_Z (Z.of_N 1)) with 1%Q.
  assert (H : (p10 K * p10 (- K) == 1)%Q).
  { rewrite <- p10_add. replace (K + - K) with 0 by lia. reflexivity. }
  set (a := p10 K) in *. set (b := p10 (- K)) in *. clearbody a b.
  setoid_replace ((a + - (1)) * b)%Q with (a * b - b)%Q by ring.
  rewrite H. reflexivity.
Qed.

Lemma nines_unit_interval : (0 < value (nines K) /\ value (nines K) < 1)%Q.
Proof.
  rewrite nines_value.
  pose proof (p10_pos (- K)). pose proof (p10_lt (- K) 0 ltac:(lia)) as Hlt.
  change (p10 0) with 1%Q in Hlt. split; lra.
Qed.

(** 1 - 0.99...9 is exactly 1E-K before rounding. *)
Lemma sub_one_nines : sub ctx one (nines K) = fix_finite ctx false 1 (- K).
Proof.
  unfold sub, one, nines. cbn [copy_negate negb add].
  replace (Z.min 0 (- K)) with (- K) by lia.
  change ((1 =? 0)%N) with false. cbn [andb].
  unfold scaled.
  replace (- K - - K) with 0 by lia. rewrite pow10_0, N.mul_1_r, N.mul_1_l.
  replace (0 - - K) with K by lia.
  pose proof nines_coeff as Hc.
  assert (Hv : Z.of_N (pow10 K) + - Z.of_N (pow10 K - 1) = 1) by lia.
  rewrite Hv. reflexivity.
Qed.

(** Once the difference rounds to zero, every call with k = rows raises:
    [(1 - p) ** 0] is [0 ** 0]. *)
Lemma nines_raises rows k e0 :
  fix_finite ctx false 1 (- K) = Ok (Finite false 0 e0) ->
  rows - k = 0 ->
  exists ex, binomial_probability rows k (nines K) = Raise ex.
Proof.
  intros Hfix Hk. unfold binomial_probability.
  destruct (comb rows k) as [cmb|ex]; [|exists ex; reflexivity].
  cbn [bind].
  destruct (pow ctx (nines K) k) as [ps|ex]; [|exists ex; reflexivity].
  cbn [bind]. rewrite sub_one_nines, Hfix. cbn [bind]. rewrite Hk.
  exists InvalidOperation. reflexivity.
Qed.

Lemma nines_pow_zero : pow ctx (nines K) 0 = Ok (Finite false 1 0).
Proof.
  unfold pow, nines. pose proof nines_coeff as Hc.
  destruct (N.eqb_spec (pow10 K - 1) 0) as [Hz|_]; [lia|]. reflexivity.
Qed.

Lemma nines_raises_00 e0 :
  fix_finite ctx false 1 (- K) = Ok (Finite false 0 e0) ->
  binomial_probability 0 0 (nines K) = Raise InvalidOperation.
Proof.
  intros Hfix. unfold binomial_probability.
  change (comb 0 0) with (Ok 1). cbn [bind].
  rewrite nines_pow_zero. cbn [bind].
  rewrite sub_one_nines, Hfix. reflexivity.
Qed.

End Nines.

(** 1E-1000050 underflows to zero. *)
Lemma tiny_rounds_to_zero :
  fix_finite ctx false 1 (- 1000050) = Ok (Finite false 0 (-1000048)).
Proof. vm_compute. reflexivity. Qed.

End BiasFacts.

Module Boundary.

Import Dec DecFacts FixFacts ValueFacts PowFacts CtxFacts CombFacts Plinko Spec.
Import Accuracy BiasFacts.

Lemma comb_0_r rows : 0 <= rows -> comb rows 0 = Ok 1.
Proof.
  intros H. rewrite comb_binom by lia.
  change (Z.to_nat 0) with 0%nat. rewrite binom_0_r. reflexivity.
Qed.

Lemma comb_diag rows : 0 <= rows -> comb rows rows = Ok 1.
Proof.
  intros H. rewrite comb_binom by lia. rewrite binom_diag. reflexivity.
Qed.

Lemma mul_one_l c e :
  canonical ctx c e -> mul ctx (Finite false 1 0) (Finite false c e) = Ok (Finite false c e).
Proof.
  intros H. cbn [mul xorb]. rewrite N.mul_1_l, Z.add_0_l.
  apply fix_finite_canonical. exact H.
Qed.

Lemma mul_one_r c e :
  canonical ctx c e -> mul ctx (Finite false c e) (Finite false 1 0) = Ok (Finite false c e).
Proof.
  intros H. cbn [mul xorb]. rewrite N.mul_1_r, Z.add_0_r.
  apply fix_finite_canonical. exact H.
Qed.

Lemma mul_one_one : mul ctx (Finite false 1 0) (Finite false 1 0) = Ok (Finite false 1 0).
Proof. reflexivity. Qed.

Lemma canonical_zero : canonical ctx 0 0.
Proof. unfold canonical. cbn [N.eqb]. rewrite ctx_Etiny, ctx_Emax. lia. Qed.

Lemma pow_nonzero_0 c e : c <> 0%N -> pow ctx (Finite false c e) 0 = Ok (Finite false 1 0).
Proof.
  intros H. unfold pow. destruct (N.eqb_spec c 0); [contradiction|]. reflexivity.
Qed.

(** probability(rows, 0, bias) is (1 - bias) ** rows, whatever the latter
    does. *)
Lemma probability_k0 rows c e :
  0 <= rows -> (0 < uval c e)%Q -> (uval c e < 1)%Q ->
  binomial_probability rows 0 (Finite false c e)
  = (q <- sub ctx one (Finite false c e) ;; pow ctx q rows)%py.
Proof.
  intros Hrows Hpos Hlt.
  assert (Hnz : c <> 0%N).
  { intros ->. rewrite uval_0 in Hpos. lra. }
  unfold binomial_probability.
  rewrite comb_0_r by assumption. cbn [bind].
  rewrite pow_nonzero_0 by assumption. cbn [bind].
  destruct (sub_one_value c e Hpos Hlt) as (cq & eq & Hsq & _ & Hqle & _ & _).
  rewrite Hsq. cbn [bind]. rewrite Z.sub_0_r.
  change (of_int 1) with (Finite false 1 0).
  destruct (N.eq_dec cq 0) as [->|Hqnz].
  - (* the difference underflowed to zero *)
    unfold pow. cbn [N.eqb andb].
    destruct (Z.eqb_spec rows 0); [reflexivity|].
    destruct (Z.ltb_spec rows 0); [lia|]. cbn [bind].
    rewrite mul_one_one. apply mul_one_l, canonical_zero.
  - destruct (pow_value cq eq rows (uval_pos cq eq Hqnz) Hqle Hrows)
      as (cb & eb & Hpb & Hcan & _ & _).
    rewrite Hpb. cbn [bind]. rewrite mul_one_one. apply mul_one_l, Hcan.
Qed.

(** probability(rows, rows, bias) is bias ** rows as long as 1 - bias does
    not underflow to zero. *)
Lemma probability_kn rows c e :
  0 <= rows -> (0 < uval c e)%Q -> (uval c e < 1)%Q -> -1000048 <= e ->
  binomial_probability rows rows (Finite false c e) = pow ctx (Finite false c e) rows.
Proof.
  intros Hrows Hpos Hlt He.
  unfold binomial_probability.
  rewrite comb_diag by assumption. cbn [bind].
  destruct (pow_value c e rows Hpos ltac:(lra) Hrows)
    as (ca & ea & Hpa & Hcan & _ & _).
  rewrite Hpa. cbn [bind].
  destruct (sub_one_value c e Hpos Hlt) as (cq & eq & Hsq & _ & _ & _ & Hqnz).
  rewrite Hsq. cbn [bind]. rewrite Z.sub_diag.
  rewrite pow_nonzero_0 by (apply Hqnz; lia). cbn [bind].
  change (of_int 1) with (Finite false 1 0).
  rewrite mul_one_l by exact Hcan. cbn [bind].
  apply mul_one_r, Hcan.
Qed.

End Boundary.

(* ===================================================================== *)
(** ** The report *)
(* ===================================================================== *)

Module Report.

Import Dec Plinko Spec.

Lemma iobind_lift_ok {A B} (a : A) (f : A -> IO B) : iobind (lift (Ok a)) f = f a.
Proof. unfold iobind, lift. destruct (f a). reflexivity. Qed.

Lemma iobind_lift_raise {A B} e (f : A -> IO B) :
  iobind (lift (Raise e)) f = ([], Raise e).
Proof. reflexivity. Qed.

Lemma iobind_print {B} l (f : unit -> IO B) :
  iobind (print l) f = (l :: fst (f tt), snd (f tt)).
Proof. unfold iobind, print. destruct (f tt). reflexivity. Qed.

Lemma iobind_pair {A B} (out : list line) (a : A) (f : A -> IO B) :
  iobind (out, Ok a) f = (out ++ fst (f a), snd (f a)).
Proof. unfold iobind. destruct (f a). reflexivity. Qed.

Lemma iobind_ret {A B} (a : A) (f : A -> IO B) : iobind (ret a) f = f a.
Proof. unfold iobind, ret. destruct (f a). reflexivity. Qed.

(** [d[key]] succeeds exactly on the keys of the dict. *)
Lemma getitem_missing {V} (d : list (Z * V)) key :
  ~ In key (keys d) -> getitem d key = Raise KeyError.
Proof.
  induction d as [|[k v] d IH]; intros H; [reflexivity|].
  cbn [getitem]. cbn in H.
  destruct (Z.eqb_spec k key) as [->|_]; [tauto|]. apply IH. tauto.
Qed.


(** The loop prints bucket rows only. *)
Lemma bucket_loop_lines rows ms : forall i tr tp,
  forallb is_bucket_row (fst (bucket_loop rows ms i tr tp)) = true.
Proof.
  induction ms as [|m rest IH]; intros i tr tp; [reflexivity|].
  cbn [bucket_loop].
  destruct (binomial_probability rows i LEFT_PROBABILITY) as [prob|e];
    [rewrite iobind_lift_ok|reflexivity].
  destruct (add ctx tp prob) as [tp'|e]; [rewrite iobind_lift_ok|reflexivity].
  destruct (mul ctx prob m) as [contribution|e]; [rewrite iobind_lift_ok|reflexivity].
  destruct (add ctx tr contribution) as [tr'|e]; [rewrite iobind_lift_ok|reflexivity].
  rewrite iobind_print. cbn [fst forallb is_bucket_row andb]. apply IH.
Qed.

Lemma no_warning_of_bucket_rows out :
  forallb is_bucket_row out = true -> forall f, ~ In (Warning f) out.
Proof.
  intros H f Hin. rewrite forallb_forall in H. specialize (H _ Hin). discriminate.
Qed.

(** What a call that returns has done: looked the table up, run the loop
    to the end, printed the report, and returned [float(total_rtp)]; the
    warning line is the only thing the sanity check decides. *)
Lemma calculate_rtp_returns rows out returned :
  calculate_rtp rows = (out, Ok returned) ->
  exists ms rows_out total_rtp total_prob right percent edge_percent,
    getitem MULTIPLIER_TABLES rows = Ok ms /\
    bucket_loop rows ms 0 zero zero = (rows_out, Ok (total_rtp, total_prob)) /\
    returned = Flt.of_decimal total_rtp /\
    out = header rows right ++ rows_out
          ++ footer total_rtp total_prob percent edge_percent
          ++ (if anomaly total_prob
              then [Warning (Flt.of_decimal total_prob)] else []).
Proof.
  unfold calculate_rtp.
  destruct (getitem MULTIPLIER_TABLES rows) as [ms|e];
    [rewrite iobind_lift_ok|discriminate].
  rewrite !iobind_print. cbn [fst snd].
  destruct (sub ctx one LEFT_PROBABILITY) as [right|e] eqn:Hright;
    [rewrite iobind_lift_ok|discriminate].
  rewrite !iobind_print. cbn [fst snd].
  fold zero.
  destruct (bucket_loop rows ms 0 zero zero) as [rows_out [[tr tp]|e]] eqn:Hloop;
    [rewrite iobind_pair|discriminate].
  rewrite !iobind_print. cbn [fst snd].
  destruct (mul ctx tr (of_int 100)) as [percent|e];
    [rewrite iobind_lift_ok|discriminate].
  rewrite !iobind_print. cbn [fst snd].
  destruct (sub ctx one tr) as [edge|e]; [rewrite iobind_lift_ok|discriminate].
  destruct (mul ctx edge (of_int 100)) as [edge_percent|e];
    [rewrite iobind_lift_ok|discriminate].
  rewrite !iobind_print. cbn [fst snd].
  intros H. exists ms, rows_out, tr, tp, right, percent, edge_percent.
  split; [reflexivity|]. split; [exact Hloop|].
  destruct (anomaly tp).
  - rewrite iobind_print in H. cbn [fst snd ret] in H.
    injection H as <- <-. split; reflexivity.
  - rewrite !iobind_ret in H. cbn [fst snd ret] in H.
    injection H as <- <-. split; reflexivity.
Qed.

End Report.

Module Aggregator.

Import Dec Plinko Spec Report.

(** The loop refines the aggregator of the specification: on a run that
    ends normally both give the same sums. *)
Lemma bucket_loop_aggregate rows ms : forall rest pre i tr tp out tr' tp',
  ms = pre ++ rest -> i = Z.of_nat (length pre) ->
  bucket_loop rows rest i tr tp = (out, Ok (tr', tp')) ->
  aggregate_from rows LEFT_PROBABILITY ms i (length rest) tr tp = Ok (tr', tp').
Proof.
  induction rest as [|m rest IH]; intros pre i tr tp out tr' tp' Hms Hi Hloop.
  - cbn in Hloop. injection Hloop as _ <- <-. reflexivity.
  - cbn [bucket_loop] in Hloop. cbn [length aggregate_from].
    destruct (binomial_probability rows i LEFT_PROBABILITY) as [prob|e];
      [rewrite iobind_lift_ok in Hloop|discriminate].
    destruct (add ctx tp prob) as [tp1|e] eqn:Hadd1;
      [rewrite iobind_lift_ok in Hloop|discriminate].
    destruct (mul ctx prob m) as [contribution|e] eqn:Hmul;
      [rewrite iobind_lift_ok in Hloop|discriminate].
    destruct (add ctx tr contribution) as [tr1|e] eqn:Hadd2;
      [rewrite iobind_lift_ok in Hloop|discriminate].
    rewrite iobind_print in Hloop.
    cbn [bind].
    assert (Hnth : nth_error ms (Z.to_nat i) = Some m).
    { rewrite Hms, Hi, Nat2Z.id, nth_error_app2 by lia.
      rewrite Nat.sub_diag. reflexivity. }
    rewrite Hnth. cbn [bind]. rewrite Hmul. cbn [bind].
    rewrite Hadd2. cbn [bind]. rewrite Hadd1. cbn [bind].
    destruct (bucket_loop rows rest (i + 1) tr1 tp1) as [out1 r1] eqn:Hrest.
    cbn [fst snd] in Hloop. injection Hloop as _ ->.
    apply (IH (pre ++ [m]) (i + 1) tr1 tp1 out1 tr' tp').
    + rewrite <- app_assoc. exact Hms.
    + rewrite length_app. cbn [length]. lia.
    + exact Hrest.
Qed.

(** ... and prints one line per bucket, in order, with its probability,
    multiplier and contribution. *)
Lemma bucket_loop_expected rows : forall rest i tr tp out totals,
  bucket_loop rows rest i tr tp = (out, Ok totals) ->
  out = expected_rows rows LEFT_PROBABILITY rest i.
Proof.
  induction rest as [|m rest IH]; intros i tr tp out totals Hloop.
  - cbn in Hloop. injection Hloop as <- _. reflexivity.
  - cbn [bucket_loop] in Hloop. cbn [expected_rows].
    destruct (binomial_probability rows i LEFT_PROBABILITY) as [prob|e];
      [rewrite iobind_lift_ok in Hloop|discriminate].
    destruct (add ctx tp prob) as [tp1|e];
      [rewrite iobind_lift_ok in Hloop|discriminate].
    destruct (mul ctx prob m) as [contribution|e];
      [rewrite iobind_lift_ok in Hloop|discriminate].
    destruct (add ctx tr contribution) as [tr1|e];
      [rewrite iobind_lift_ok in Hloop|discriminate].
    rewrite iobind_print in Hloop.
    destruct (bucket_loop rows rest (i + 1) tr1 tp1) as [out1 r1] eqn:Hrest.
    cbn [fst snd] in Hloop. injection Hloop as <- ->.
    f_equal. eapply IH. exact Hrest.
Qed.

Lemma filter_all {A} (f : A -> bool) l : forallb f l = true -> filter f l = l.
Proof.
  induction l as [|a l IH]; [reflexivity|].
  cbn. destruct (f a); [|discriminate]. cbn. intros H. f_equal. auto.
Qed.

(** The bucket rows of a report are the lines of its loop. *)
Lemma report_bucket_rows rows right rows_out tr tp pct edge (w : list line) :
  forallb is_bucket_row rows_out = true ->
  forallb (fun l => negb (is_bucket_row l)) w = true ->
  filter is_bucket_row
    (header rows right ++ rows_out ++ footer tr tp pct edge ++ w) = rows_out.
Proof.
  intros Hrows Hw.
  rewrite !filter_app. cbn [header footer filter is_bucket_row app].
  rewrite (filter_all _ _ Hrows).
  assert (Hnil : filter is_bucket_row w = []).
  { clear - Hw. induction w as [|a w IH]; [reflexivity|].
    cbn in *. destruct (is_bucket_row a); [discriminate|]. auto. }
  rewrite Hnil, app_nil_r. reflexivity.
Qed.

End Aggregator.

Module FloatFacts.


End FloatFacts.

Module Summary.

Import Dec Plinko Spec Report.





End Summary.

Module Symmetry.

Import Dec Plinko Spec.

Lemma decimal_eqb_eq a b : decimal_eqb a b = true -> a = b.
Proof.
  destruct a as [sa ca ea|sa], b as [sb cb eb|sb]; cbn [decimal_eqb];
    try discriminate.
  - intros H. apply andb_prop in H as [H He]. apply andb_prop in H as [Hs Hc].
    apply Bool.eqb_prop in Hs. apply N.eqb_eq in Hc. apply Z.eqb_eq in He.
    congruence.
  - intros H. apply Bool.eqb_prop in H. congruence.
Qed.

Lemma symmetric_row_sound rows bias : forall count,
  symmetric_row rows bias count = true ->
  forall j, (j < count)%nat ->
    binomial_probability rows (Z.of_nat j) bias
    = binomial_probability rows (rows - Z.of_nat j) bias /\
    exists d, binomial_probability rows (Z.of_nat j) bias = Ok d.
Proof.
  induction count as [|c IH]; intros H j Hj; [lia|].
  cbn [symmetric_row] in H.
  destruct (binomial_probability rows (Z.of_nat c) bias) as [a|] eqn:Ha;
    [|discriminate].
  destruct (binomial_probability rows (rows - Z.of_nat c) bias) as [b|] eqn:Hb;
    [|discriminate].
  apply andb_prop in H as [Hab Hrest].
  destruct (Nat.eq_dec j c) as [->|Hne].
  - rewrite Ha, Hb. apply decimal_eqb_eq in Hab. subst b.
    split; [reflexivity|]. exists a. reflexivity.
  - apply IH; [exact Hrest|lia].
Qed.

Lemma symmetric_upto_sound bias : forall count,
  symmetric_upto bias count = true ->
  forall n j, (n < count)%nat -> (j <= n)%nat ->
    binomial_probability (Z.of_nat n) (Z.of_nat j) bias
    = binomial_probability (Z.of_nat n) (Z.of_nat n - Z.of_nat j) bias /\
    exists d, binomial_probability (Z.of_nat n) (Z.of_nat j) bias = Ok d.
Proof.
  induction count as [|c IH]; intros H n j Hn Hj; [lia|].
  cbn [symmetric_upto] in H. apply andb_prop in H as [Hrow Hrest].
  destruct (Nat.eq_dec n c) as [->|Hne].
  - apply (symmetric_row_sound _ _ _ Hrow). lia.
  - apply IH; [exact Hrest|lia|exact Hj].
Qed.

End Symmetry.

Import Dec Plinko Spec.
Import DecFacts FixFacts ValueFacts PowFacts CtxFacts CombFacts Accuracy BiasFacts.
Import Boundary Report Aggregator FloatFacts Summary Symmetry.

(* ===================================================================== *)
(** ** The claims *)
(* ===================================================================== *)

Lemma bias_inv bias :
  (0 < value bias)%Q -> (value bias < 1)%Q ->
  exists c e, bias = Finite false c e /\ (0 < uval c e)%Q /\ (uval c e < 1)%Q.
Proof.
  intros Hpos Hlt. destruct (positive_value_inv bias Hpos) as (c & e & -> & _).
  exists c, e. rewrite value_finite in *. auto.
Qed.

(** C1 (amended): for 0 <= k <= rows <= 999999 and a bias of (0, 1) whose
    exponent is at least Etiny = -1000048, probability(rows, k, bias)
    returns, without raising, a decimal of at most 50 digits within
    C(rows,k) (rows + 12) 10^-49 of C(rows,k) bias^k (1-bias)^(rows-k),
    the coefficient being the exact integer rows! / (k! (rows-k)!). *)
Theorem binomial_probability_spec :
  forall (rows k : Z) (bias : Decimal),
    0 <= k <= rows -> rows <= 999999 ->
    (0 < value bias)%Q -> (value bias < 1)%Q ->
    Etiny ctx <= exponent bias ->
    let n := Z.to_nat rows in
    let j := Z.to_nat k in
    comb rows k = Ok (Z.of_N (binom n j)) /\
    (binom n j * fact j * fact (n - j) = fact n)%N /\
    exists r,
      binomial_probability rows k bias = Ok r /\
      is_finite r = true /\
      ndigits (coefficient r) <= prec ctx /\
      (Qabs (value r - exact_probability n j (value bias))
       <= inject_Z (Z.of_N (binom n j)) * (inject_Z (rows + 12) * p10 (-49)))%Q.
Proof.
  intros rows k bias Hk Hrows Hpos Hlt Hexp n j.
  destruct (bias_inv bias Hpos Hlt) as (c & e & -> & Hp & Hl).
  cbn [exponent] in Hexp. rewrite ctx_Etiny in Hexp.
  split; [apply comb_binom; exact Hk|].
  split; [apply binom_fact; unfold n, j; lia|].
  destruct (binomial_probability_accuracy rows k c e Hk Hrows Hp Hl Hexp)
    as (c' & e' & Hbp & Hcan & Herr).
  exists (Finite false c' e'). split; [exact Hbp|]. split; [reflexivity|].
  split. { cbn [coefficient]. rewrite ctx_prec. exact (canonical_digits c' e' Hcan). }
  rewrite !value_finite. exact Herr.
Qed.

Lemma binomial_probability_spec_witness :
  comb 11 5 = Ok (Z.of_N (binom 11 5)) /\
  (binom 11 5 * fact 5 * fact (11 - 5) = fact 11)%N /\
  exists r,
    binomial_probability 11 5 LEFT_PROBABILITY = Ok r /\
    is_finite r = true /\
    ndigits (coefficient r) <= prec ctx /\
    (Qabs (value r - exact_probability 11 5 (value LEFT_PROBABILITY))
     <= inject_Z (Z.of_N (binom 11 5)) * (inject_Z (11 + 12) * p10 (-49)))%Q.
Proof.
  apply (binomial_probability_spec 11 5 LEFT_PROBABILITY).
  - lia.
  - lia.
  - reflexivity.
  - reflexivity.
  - vm_compute. discriminate.
Defined.

(** C1 (as stated) fails for the bias 0.99...9 with 1000050 nines: it lies
    strictly between 0 and 1, yet 1 - bias underflows to zero and
    probability(0, 0, bias) raises InvalidOperation on 0 ** 0. *)
Lemma binomial_probability_raises :
  ((0 < value (nines 1000050))%Q /\ (value (nines 1000050) < 1)%Q) /\
  binomial_probability 0 0 (nines 1000050) = Raise InvalidOperation.
Proof.
  split.
  - apply nines_unit_interval. lia.
  - apply (nines_raises_00 1000050 ltac:(lia) _ tiny_rounds_to_zero).
Qed.

(** C7 (amended): for rows >= 0 and a bias of (0, 1), probability(rows, 0,
    bias) is (1 - bias) ** rows in the same arithmetic (same decimal, or
    same exception); and when the exponent of bias is at least
    Etiny = -1000048, probability(rows, rows, bias) is bias ** rows. *)
Theorem boundary_probabilities :
  forall (rows : Z) (bias : Decimal),
    0 <= rows -> (0 < value bias)%Q -> (value bias < 1)%Q ->
    binomial_probability rows 0 bias
      = (q <- sub ctx one bias ;; pow ctx q rows)%py /\
    (Etiny ctx <= exponent bias ->
     binomial_probability rows rows bias = pow ctx bias rows).
Proof.
  intros rows bias Hrows Hpos Hlt.
  destruct (bias_inv bias Hpos Hlt) as (c & e & -> & Hp & Hl).
  split.
  - apply probability_k0; assumption.
  - cbn [exponent]. rewrite ctx_Etiny. intros He.
    apply probability_kn; assumption.
Qed.

Lemma boundary_probabilities_witness :
  binomial_probability 11 0 LEFT_PROBABILITY
    = (q <- sub ctx one LEFT_PROBABILITY ;; pow ctx q 11)%py /\
  (Etiny ctx <= exponent LEFT_PROBABILITY ->
   binomial_probability 11 11 LEFT_PROBABILITY = pow ctx LEFT_PROBABILITY 11).
Proof.
  apply (boundary_probabilities 11 LEFT_PROBABILITY).
  - lia.
  - reflexivity.
  - reflexivity.
Defined.

(** C7 (as stated) fails for the bias 0.99...9 with 1000050 nines and
    rows = 0: bias ** 0 is 1, but probability(0, 0, bias) raises. *)
Lemma boundary_fails_on_underflow :
  ((0 < value (nines 1000050))%Q /\ (value (nines 1000050) < 1)%Q) /\
  pow ctx (nines 1000050) 0 = Ok (Finite false 1 0) /\
  binomial_probability 0 0 (nines 1000050) <> pow ctx (nines 1000050) 0.
Proof.
  split; [apply nines_unit_interval; lia|].
  split; [apply nines_pow_zero; lia|].
  rewrite (nines_pow_zero 1000050 ltac:(lia)).
  rewrite (nines_raises_00 1000050 ltac:(lia) _ tiny_rounds_to_zero).
  discriminate.
Qed.

Lemma symmetric_upto_68 : symmetric_upto half 69 = true.
Proof. vm_compute. reflexivity. Qed.

(** C6 (amended): with bias = Decimal('0.5') and rows <= 68,
    probability(rows, k, 0.5) and probability(rows, rows - k, 0.5) return
    the same decimal for every 0 <= k <= rows. *)
Theorem probability_symmetric_upto_68 :
  forall rows k : Z,
    0 <= k <= rows -> rows <= 68 ->
    binomial_probability rows k half = binomial_probability rows (rows - k) half /\
    exists d, binomial_probability rows k half = Ok d.
Proof.
  intros rows k Hk Hrows.
  pose proof (symmetric_upto_sound half 69 symmetric_upto_68
                (Z.to_nat rows) (Z.to_nat k) ltac:(lia) ltac:(lia)) as H.
  rewrite !Z2Nat.id in H by lia. exact H.
Qed.

Lemma probability_symmetric_witness :
  binomial_probability 11 4 half = binomial_probability 11 (11 - 4) half /\
  exists d, binomial_probability 11 4 half = Ok d.
Proof.
  apply (probability_symmetric_upto_68 11 4); lia.
Defined.

(** C6 (as stated) fails at rows = 69, k = 16: the two calls return
    decimals one unit in the last place apart. *)
Lemma probability_asymmetric_69_16 :
  binomial_probability 69 16 half
    = Ok (Finite false 32411075257980916596543818908315870430669747292995 (-55)) /\
  binomial_probability 69 (69 - 16) half
    = Ok (Finite false 32411075257980916596543818908315870430669747292996 (-55)) /\
  ~ numeric_eq (binomial_probability 69 16 half)
               (binomial_probability 69 (69 - 16) half).
Proof.
  assert (H1 : binomial_probability 69 16 half
    = Ok (Finite false 32411075257980916596543818908315870430669747292995 (-55)))
    by (vm_compute; reflexivity).
  assert (H2 : binomial_probability 69 (69 - 16) half
    = Ok (Finite false 32411075257980916596543818908315870430669747292996 (-55)))
    by (vm_compute; reflexivity).
  split; [exact H1|]. split; [exact H2|].
  rewrite H1, H2. unfold numeric_eq. vm_compute. discriminate.
Qed.

Lemma Qsum_le_const f c n :
  (forall k, (k < n)%nat -> (f k <= c)%Q) ->
  (Qsum f n <= inject_Z (Z.of_nat n) * c)%Q.
Proof.
  induction n as [|n IH]; intros H.
  - cbn [Qsum]. change (inject_Z (Z.of_nat 0)) with 0%Q. lra.
  - cbn [Qsum]. rewrite Nat2Z.inj_succ. unfold Z.succ.
    rewrite inject_Z_plus. change (inject_Z 1) with 1%Q.
    pose proof (IH ltac:(intros; apply H; lia)). pose proof (H n ltac:(lia)).
    lra.
Qed.

(** Every term of a row of at most 20 is within 2^25 10^-49 of its exact
    probability. *)
Lemma probability_value_error rows c e (k : nat) :
  1 <= rows <= 20 -> (0 < uval c e)%Q -> (uval c e < 1)%Q -> -1000048 <= e ->
  (k <= Z.to_nat rows)%nat ->
  (exists d, binomial_probability rows (Z.of_nat k) (Finite false c e) = Ok d /\
             is_finite d = true) /\
  (Qabs (probability_value rows (Finite false c e) k
         - exact_probability (Z.to_nat rows) k (uval c e))
   <= 33554432 * p10 (-49))%Q.
Proof.
  intros Hrows Hpos Hlt He Hk.
  destruct (binomial_probability_accuracy rows (Z.of_nat k) c e
              ltac:(lia) ltac:(lia) Hpos Hlt He) as (c' & e' & Hbp & _ & Herr).
  split. { exists (Finite false c' e'). split; [exact Hbp|reflexivity]. }
  unfold probability_value. rewrite Hbp, value_finite.
  rewrite Nat2Z.id in Herr.
  eapply Qle_trans; [exact Herr|].
  set (n := Z.to_nat rows) in *.
  assert (HB : (binom n k <= 1048576)%N).
  { pose proof (binom_le_pow2 n k) as H1.
    assert (H2 : (2 ^ N.of_nat n <= 2 ^ 20)%N)
      by (apply N.pow_le_mono_r; [discriminate|unfold n; lia]).
    change (2 ^ 20)%N with 1048576%N in H2. lia. }
  apply injN_le in HB. change (inject_Z (Z.of_N 1048576)) with 1048576%Q in HB.
  assert (HR : (0 <= inject_Z (rows + 12) <= 32)%Q).
  { change 0%Q with (inject_Z 0). change 32%Q with (inject_Z 32).
    rewrite <- !Zle_Qle. lia. }
  pose proof (injN_nonneg (binom n k)) as HB0.
  pose proof (p10_pos (-49)) as HP.
  set (Bq := inject_Z (Z.of_N (binom n k))) in *.
  set (R := inject_Z (rows + 12)) in *. set (P := p10 (-49)) in *.
  clearbody Bq R P.
  assert (0 <= R * P)%Q by (apply Qmult_le_0_compat; lra).
  assert (0 <= (1048576 - Bq) * (R * P))%Q by (apply Qmult_le_0_compat; lra).
  assert (0 <= (32 - R) * P)%Q by (apply Qmult_le_0_compat; lra).
  lra.
Qed.

Lemma clean_runs : forallb clean_run supported_rows = true.
Proof. vm_compute. reflexivity. Qed.

Lemma clean_run_inv rows :
  clean_run rows = true ->
  exists total_rtp total_prob out returned,
    run_totals rows = Ok (total_rtp, total_prob) /\
    calculate_rtp rows = (out, Ok returned) /\
    (Qabs (value total_prob - 1) <= 1 # 1000000000)%Q /\
    anomaly total_prob = false /\
    existsb is_warning out = false.
Proof.
  unfold clean_run. intros H.
  destruct (run_totals rows) as [[tr tp]|]; [|discriminate].
  destruct (calculate_rtp rows) as [out [returned|]]; [|discriminate].
  apply andb_prop in H as [H H3]. apply andb_prop in H as [H1 H2].
  exists tr, tp, out, returned.
  split; [reflexivity|]. split; [reflexivity|].
  split; [apply Qle_bool_iff; exact H1|].
  split; [apply negb_true_iff; exact H2|apply negb_true_iff; exact H3].
Qed.

Lemma supported_clean rows : In rows supported_rows -> clean_run rows = true.
Proof.
  intros H. pose proof clean_runs as Hall.
  rewrite forallb_forall in Hall. auto.
Qed.

Lemma table_lengths rows ms :
  getitem MULTIPLIER_TABLES rows = Ok ms -> length ms = S (Z.to_nat rows).
Proof.
  unfold MULTIPLIER_TABLES. cbn [getitem].
  repeat match goal with
         | |- context [Z.eqb ?k rows] =>
             destruct (Z.eqb_spec k rows) as [<-|_];
             [intros H; injection H as <-; reflexivity|]
         end.
  discriminate.
Qed.

Lemma run_totals_of_loop rows ms out totals :
  getitem MULTIPLIER_TABLES rows = Ok ms ->
  bucket_loop rows ms 0 zero zero = (out, Ok totals) ->
  run_totals rows = Ok totals.
Proof.
  intros Hget Hloop. unfold run_totals. rewrite Hget. cbn [bind].
  rewrite Hloop. reflexivity.
Qed.


(** C4 (amended): for 1 <= rows <= 20 and a bias of (0, 1) whose exponent
    is at least Etiny = -1000048, every probability(rows, k, bias),
    0 <= k <= rows, returns, and their sum is within 1e-9 of 1; and for
    rows = 11 the total_prob accumulated by calculate_rtp is within 1e-9
    of 1. *)
Theorem normalization :
  (forall (rows : Z) (bias : Decimal),
     1 <= rows <= 20 ->
     (0 < value bias)%Q -> (value bias < 1)%Q ->
     Etiny ctx <= exponent bias ->
     (forall k, 0 <= k <= rows ->
        exists d, binomial_probability rows k bias = Ok d /\ is_finite d = true) /\
     (Qabs (Qsum (probability_value rows bias) (S (Z.to_nat rows)) - 1)
      <= 1 # 1000000000)%Q) /\
  (exists total_rtp total_prob,
     run_totals 11 = Ok (total_rtp, total_prob) /\
     (Qabs (value total_prob - 1) <= 1 # 1000000000)%Q).
Proof.
  split.
  - intros rows bias Hrows Hpos Hlt Hexp.
    destruct (bias_inv bias Hpos Hlt) as (c & e & -> & Hp & Hl).
    cbn [exponent] in Hexp. rewrite ctx_Etiny in Hexp.
    split.
    + intros k Hk.
      destruct (probability_value_error rows c e (Z.to_nat k) Hrows Hp Hl Hexp
                  ltac:(lia)) as [Hret _].
      rewrite Z2Nat.id in Hret by lia. exact Hret.
    + set (n := Z.to_nat rows).
      rewrite <- (exact_probability_sum n (uval c e)).
      rewrite <- Qsum_minus.
      eapply Qle_trans; [apply Qsum_abs|].
      eapply Qle_trans.
      { apply Qsum_le_const with (c := (33554432 * p10 (-49))%Q).
        intros k Hk.
        apply (probability_value_error rows c e k Hrows Hp Hl Hexp). lia. }
      assert (Hn : (inject_Z (Z.of_nat (S n)) <= 21)%Q).
      { change 21%Q with (inject_Z 21). rewrite <- Zle_Qle. unfold n. lia. }
      assert (Hn0 : (0 <= inject_Z (Z.of_nat (S n)))%Q).
      { change 0%Q with (inject_Z 0). rewrite <- Zle_Qle. lia. }
      assert (H9 : (1000000000 * p10 (-49) <= 1 # 1000000000)%Q)
        by (vm_compute; discriminate).
      pose proof (p10_pos (-49)) as HP.
      set (m := inject_Z (Z.of_nat (S n))) in *. set (P := p10 (-49)) in *.
      clearbody m P.
      assert (0 <= (21 - m) * P)%Q by (apply Qmult_le_0_compat; lra).
      lra.
  - destruct (clean_run_inv 11 (supported_clean 11 ltac:(cbn; tauto)))
      as (tr & tp & _ & _ & Htot & _ & Herr & _).
    exists tr, tp. split; assumption.
Qed.

Lemma normalization_witness :
  (forall k, 0 <= k <= 11 ->
     exists d, binomial_probability 11 k LEFT_PROBABILITY = Ok d /\
               is_finite d = true) /\
  (Qabs (Qsum (probability_value 11 LEFT_PROBABILITY) (S (Z.to_nat 11)) - 1)
   <= 1 # 1000000000)%Q.
Proof.
  apply (proj1 normalization 11 LEFT_PROBABILITY).
  - lia.
  - reflexivity.
  - reflexivity.
  - vm_compute. discriminate.
Defined.

(** C4 (as stated) fails for rows = 1 and the bias 0.99...9 with 1000050
    nines: probability(1, 1, bias) raises, so the sum does not exist. *)
Lemma normalization_fails_on_underflow :
  ((0 < value (nines 1000050))%Q /\ (value (nines 1000050) < 1)%Q) /\
  exists ex, binomial_probability 1 1 (nines 1000050) = Raise ex.
Proof.
  split; [apply nines_unit_interval; lia|].
  apply (nines_raises 1000050 ltac:(lia) 1 1 _ tiny_rounds_to_zero). reflexivity.
Qed.

(** C9: for every rows outside {11, ..., 16}, calculate_rtp(rows) raises
    KeyError on the table lookup, having printed nothing and computed no
    probability. *)
Theorem unsupported_rows_raise :
  forall rows : Z,
    ~ In rows supported_rows ->
    calculate_rtp rows = ([], Raise KeyError).
Proof.
  intros rows H. unfold calculate_rtp.
  rewrite (getitem_missing MULTIPLIER_TABLES rows H). reflexivity.
Qed.

Lemma unsupported_rows_witness : calculate_rtp 10 = ([], Raise KeyError).
Proof.
  apply (unsupported_rows_raise 10).
  cbn. lia.
Defined.

(** C10: for every rows of {11, ..., 16} the accumulated total probability
    is within 1e-4 of 1 (within 1e-9 even), the sanity check is false and
    no warning line is printed. *)
Theorem anomaly_unreachable :
  forall rows : Z,
    In rows supported_rows ->
    exists total_rtp total_prob,
      run_totals rows = Ok (total_rtp, total_prob) /\
      (Qabs (value total_prob - 1) <= 1 # 10000)%Q /\
      anomaly total_prob = false /\
      existsb is_warning (fst (calculate_rtp rows)) = false.
Proof.
  intros rows H.
  destruct (clean_run_inv rows (supported_clean rows H))
    as (tr & tp & out & returned & Htot & Hcalc & Herr & Han & Hw).
  exists tr, tp. split; [exact Htot|].
  split. { eapply Qle_trans; [exact Herr|]. unfold Qle. cbn. lia. }
  split; [exact Han|]. rewrite Hcalc. exact Hw.
Qed.

Lemma anomaly_unreachable_witness :
  exists total_rtp total_prob,
    run_totals 11 = Ok (total_rtp, total_prob) /\
    (Qabs (value total_prob - 1) <= 1 # 10000)%Q /\
    anomaly total_prob = false /\
    existsb is_warning (fst (calculate_rtp 11)) = false.
Proof.
  apply (anomaly_unreachable 11).
  cbn. lia.
Defined.



(** A run of the loop that ends normally printed one line per entry. *)
Lemma bucket_loop_length rows : forall rest i tr tp out totals,
  bucket_loop rows rest i tr tp = (out, Ok totals) ->
  length out = length rest.
Proof.
  induction rest as [|m rest IH]; intros i tr tp out totals Hloop.
  - cbn in Hloop. injection Hloop as <- _. reflexivity.
  - cbn [bucket_loop] in Hloop.
    destruct (binomial_probability rows i LEFT_PROBABILITY) as [prob|e];
      [rewrite iobind_lift_ok in Hloop|discriminate].
    destruct (add ctx tp prob) as [tp1|e];
      [rewrite iobind_lift_ok in Hloop|discriminate].
    destruct (mul ctx prob m) as [contribution|e];
      [rewrite iobind_lift_ok in Hloop|discriminate].
    destruct (add ctx tr contribution) as [tr1|e];
      [rewrite iobind_lift_ok in Hloop|discriminate].
    rewrite iobind_print in Hloop.
    destruct (bucket_loop rows rest (i + 1) tr1 tp1) as [out1 r1] eqn:Hrest.
    cbn [fst snd] in Hloop. injection Hloop as <- ->.
    cbn [length]. f_equal. eapply IH. exact Hrest.
Qed.

(** C2 (amended): for every supported row count the table has rows + 1
    entries, the loop computes p_i = probability(rows, i, bias) for
    i = 0 .. rows, prints one line per bucket and accumulates
    rtp = sum of p_i * multipliers[i] and total_probability = sum of p_i
    as the specification's aggregator does, and calculate_rtp(rows)
    returns that rtp sum converted to the nearest binary64 float. *)
Theorem calculate_rtp_aggregates :
  forall rows : Z,
    In rows supported_rows ->
    exists multipliers total_rtp total_prob out,
      getitem MULTIPLIER_TABLES rows = Ok multipliers /\
      length multipliers = S (Z.to_nat rows) /\
      aggregate rows LEFT_PROBABILITY multipliers = Ok (total_rtp, total_prob) /\
      calculate_rtp rows = (out, Ok (Flt.of_decimal total_rtp)) /\
      filter is_bucket_row out
        = expected_rows rows LEFT_PROBABILITY multipliers 0 /\
      length (filter is_bucket_row out) = S (Z.to_nat rows).
Proof.
  intros rows Hin.
  destruct (clean_run_inv rows (supported_clean rows Hin))
    as (_ & _ & out & returned & _ & Hcalc & _).
  destruct (calculate_rtp_returns rows out returned Hcalc)
    as (ms & rows_out & tr & tp & right & pct & edge & Hget & Hloop & Hret & Hout).
  pose proof (table_lengths rows ms Hget) as Hlen.
  pose proof (bucket_loop_lines rows ms 0 zero zero) as Hlines.
  rewrite Hloop in Hlines. cbn [fst] in Hlines.
  assert (Hrows : filter is_bucket_row out = rows_out).
  { rewrite Hout. apply report_bucket_rows; [exact Hlines|].
    destruct (anomaly tp); reflexivity. }
  pose proof (bucket_loop_expected rows ms 0 zero zero rows_out (tr, tp) Hloop)
    as Hexp.
  exists ms, tr, tp, out.
  split; [exact Hget|]. split; [exact Hlen|].
  split.
  { unfold aggregate. rewrite <- Hlen.
    apply (bucket_loop_aggregate rows ms ms [] 0 zero zero rows_out tr tp);
      [reflexivity|reflexivity|exact Hloop]. }
  split; [rewrite Hcalc, Hret; reflexivity|].
  split; [rewrite Hrows; exact Hexp|].
  rewrite Hrows.
  rewrite <- Hlen. exact (bucket_loop_length rows ms 0 zero zero rows_out (tr, tp) Hloop).
Qed.

Lemma calculate_rtp_aggregates_witness :
  exists multipliers total_rtp total_prob out,
    getitem MULTIPLIER_TABLES 11 = Ok multipliers /\
    length multipliers = S (Z.to_nat 11) /\
    aggregate 11 LEFT_PROBABILITY multipliers = Ok (total_rtp, total_prob) /\
    calculate_rtp 11 = (out, Ok (Flt.of_decimal total_rtp)) /\
    filter is_bucket_row out
      = expected_rows 11 LEFT_PROBABILITY multipliers 0 /\
    length (filter is_bucket_row out) = S (Z.to_nat 11).
Proof.
  apply (calculate_rtp_aggregates 11).
  cbn. lia.
Defined.

(** C2 (as stated) fails on "equals": for rows = 11 the value returned is
    the float 8931553260403826 * 2^-53, which is not the decimal rtp sum
    0.99160160753662137935791078366088922199249277921676. *)
Lemma returned_float_is_not_the_sum :
  snd (calculate_rtp 11) = Ok (S754_finite false 8931553260403826 (-53)) /\
  run_totals 11
    = Ok (Finite false 99160160753662137935791078366088922199249277921676 (-50),
          Finite false 10000000000000000000000000000000000000000000000000 (-49)) /\
  ~ (Flt.to_Q (S754_finite false 8931553260403826 (-53))
     == value (Finite false
                 99160160753662137935791078366088922199249277921676 (-50)))%Q.
Proof.
  split; [vm_compute; reflexivity|].
  split; [vm_compute; reflexivity|].
  vm_compute. discriminate.
Qed.

(** C3 (amended): probability(rows, k, bias) fails, with the ValueError of
    math.comb, whenever rows < 0 or k < 0, whatever the bias; it validates
    nothing else: probability(5, 6, 0.5) returns the zero 0E-6 and
    probability(5, 2, 2) returns -40. *)
Theorem invalid_arguments :
  (forall (rows k : Z) (bias : Decimal),
     rows < 0 \/ k < 0 ->
     binomial_probability rows k bias = Raise ValueError) /\
  binomial_probability 5 6 half = Ok (Finite false 0 (-6)) /\
  binomial_probability 5 2 (of_int 2) = Ok (Finite true 40 0).
Proof.
  split; [|split; vm_compute; reflexivity].
  intros rows k bias H. unfold binomial_probability, comb.
  destruct (Z.ltb_spec rows 0); [reflexivity|].
  destruct (Z.ltb_spec k 0); [reflexivity|lia].
Qed.

Lemma invalid_arguments_witness :
  binomial_probability 5 (-1) half = Raise ValueError.
Proof.
  apply (proj1 invalid_arguments 5 (-1) half).
  right. lia.
Defined.

(** C3 (as stated) fails on its own example: probability(5, 6, 0.5)
    returns a decimal instead of failing. *)
Lemma out_of_range_k_returns :
  exists d, binomial_probability 5 6 half = Ok d.
Proof.
  exists (Finite false 0 (-6)). vm_compute. reflexivity.
Qed.



(* ===================================================================== *)
(** ** Signs through the decimal operations *)
(* ===================================================================== *)

Module SignFacts.

Import Dec Plinko Spec Ref.
Import DecFacts FixFacts ValueFacts CtxFacts BiasFacts.

(** [_fix] keeps the sign, and a zero coefficient. *)
Lemma fix_finite_shape ctx s c e d :
  fix_finite ctx s c e = Ok d ->
  exists c' e', d = Finite s c' e' /\ (c = 0%N -> c' = 0%N).
Proof.
  unfold fix_finite.
  destruct (N.eqb_spec c 0) as [->|Hc].
  - intros H. injection H as <-. eauto.
  - destruct (Etop ctx <? ndigits c + e - prec ctx); [discriminate|].
    destruct (e <? Z.max (ndigits c + e - prec ctx) (Etiny ctx)).
    + destruct (ndigits c + e - Z.max (ndigits c + e - prec ctx) (Etiny ctx) <? 0);
        cbn zeta beta iota;
        match goal with
        | |- context [prec ctx <? ndigits ?r] =>
            destruct (prec ctx <? ndigits r)
        end;
        match goal with
        | |- context [Etop ctx <? ?x] => destruct (Etop ctx <? x)
        end; try discriminate;
        intros H; injection H as <-; do 2 eexists; split;
          try reflexivity; intros; contradiction.
    + intros H. injection H as <-. do 2 eexists. split; [reflexivity|].
      intros; contradiction.
Qed.

Lemma is_nonneg_value d : is_nonneg d = true -> is_finite d = true /\ (0 <= value d)%Q.
Proof.
  destruct d as [s c e|s]; cbn [is_nonneg is_finite]; [|discriminate].
  intros H. split; [reflexivity|].
  apply orb_prop in H as [H|H].
  - destruct s; [discriminate|]. rewrite value_finite. apply uval_nonneg.
  - apply N.eqb_eq in H. subst c. cbn [value].
    assert (Hz : (inject_Z (Z.of_N 0) * (10 # 1) ^ e == 0)%Q)
      by (change (inject_Z (Z.of_N 0)) with 0%Q; ring).
    destruct s; rewrite Hz; [|apply Qle_refl]. discriminate.
Qed.

(** A finite decimal that is not below zero has sign 0 or is a zero. *)
Lemma nonneg_of_value s c e :
  (0 <= value (Finite s c e))%Q -> is_nonneg (Finite s c e) = true.
Proof.
  cbn [is_nonneg]. destruct s; [|reflexivity]. cbn [negb orb].
  intros H. apply N.eqb_eq. destruct (N.eq_dec c 0) as [|Hc]; [assumption|].
  exfalso. pose proof (uval_pos c e Hc) as Hp.
  cbn [value] in H. unfold uval, p10 in Hp. lra.
Qed.

Lemma mul_nonneg ctx a b r :
  is_nonneg a = true -> is_nonneg b = true ->
  mul ctx a b = Ok r -> is_nonneg r = true.
Proof.
  destruct a as [sa ca ea|sa], b as [sb cb eb|sb]; cbn [is_nonneg];
    try discriminate.
  intros Ha Hb H. cbn [mul] in H.
  destruct (fix_finite_shape _ _ _ _ _ H) as (c' & e' & -> & Hz).
  cbn [is_nonneg].
  apply orb_prop in Ha. apply orb_prop in Hb.
  destruct Ha as [Ha|Ha].
  - destruct sa; [discriminate|]. destruct Hb as [Hb|Hb].
    + destruct sb; [discriminate|]. reflexivity.
    + apply N.eqb_eq in Hb. subst cb. rewrite Hz by lia.
      apply orb_true_r.
  - apply N.eqb_eq in Ha. subst ca. rewrite Hz by lia. apply orb_true_r.
Qed.

Lemma pow_uint_nonneg ctx base : forall n r,
  is_nonneg base = true -> pow_uint ctx base n = Ok r -> is_nonneg r = true.
Proof.
  induction n as [m IH|m IH|]; intros r Hb H; cbn [pow_uint] in H.
  - destruct (pow_uint ctx base m) as [r1|] eqn:H1; [|discriminate].
    cbn [bind] in H.
    destruct (mul ctx r1 r1) as [r2|] eqn:H2; [|discriminate].
    cbn [bind] in H.
    pose proof (IH r1 Hb eq_refl) as N1.
    pose proof (mul_nonneg _ _ _ _ N1 N1 H2) as N2.
    exact (mul_nonneg _ _ _ _ N2 Hb H).
  - destruct (pow_uint ctx base m) as [r1|] eqn:H1; [|discriminate].
    cbn [bind] in H.
    pose proof (IH r1 Hb eq_refl) as N1.
    exact (mul_nonneg _ _ _ _ N1 N1 H).
  - injection H as <-. exact Hb.
Qed.

(** A power with a non-negative exponent of a decimal that is not below
    zero is not below zero. *)
Lemma pow_nonneg ctx base n r :
  is_nonneg base = true -> 0 <= n ->
  pow ctx base n = Ok r -> is_nonneg r = true.
Proof.
  destruct base as [s c e|s]; cbn [is_nonneg]; [|discriminate].
  intros Hb Hn H. unfold pow in H.
  destruct (N.eqb_spec c 0) as [->|Hc].
  - destruct (n =? 0); [discriminate|].
    destruct (Z.ltb_spec n 0); [lia|].
    injection H as <-. cbn [is_nonneg]. apply orb_true_r.
  - assert (Hs : s = false).
    { apply orb_prop in Hb as [Hb|Hb]; [|discriminate].
      destruct s; [discriminate|reflexivity]. }
    subst s. cbn [andb] in H.
    destruct (n =? 0); [injection H as <-; reflexivity|].
    destruct (is_abs_one c e).
    + destruct (n <? 0); injection H as <-; reflexivity.
    + destruct n as [|m|m]; [injection H as <-; reflexivity| |lia].
      destruct (pow_uint _ (Finite false c e) m) as [r1|] eqn:H1;
        [|discriminate].
      cbn [bind] in H.
      pose proof (pow_uint_nonneg _ (Finite false c e) _ _ eq_refl H1) as N1.
      destruct r1 as [s1 c1 e1|s1]; [|discriminate].
      cbn [set_sign fix_] in H.
      destruct (fix_finite_shape _ _ _ _ _ H) as (c' & e' & -> & _).
      reflexivity.
Qed.

(** [1 - p] is not below zero when [p <= 1]. *)
Lemma sub_one_nonneg ctx s c e r :
  is_nonneg (Finite s c e) = true -> (uval c e <= 1)%Q ->
  sub ctx one (Finite s c e) = Ok r -> is_nonneg r = true.
Proof.
  intros Hb Hle H. unfold sub, one in H. cbn [copy_negate add] in H.
  change ((1 =? 0)%N) with false in H. cbn [andb] in H.
  set (E := Z.min 0 e) in *.
  set (v := scaled false 1 0 E + scaled (negb s) c e E) in *.
  assert (Hv : 0 <= v).
  { unfold v, scaled.
    cbn [is_nonneg] in Hb. apply orb_prop in Hb as [Hb|Hb].
    - destruct s; [discriminate|]. cbn [negb].
      enough ((c * pow10 (e - E) <= 1 * pow10 (0 - E))%N) by lia.
      rewrite N.mul_1_l.
      destruct (N.eq_dec c 0) as [->|Hc]; [pose proof (pow10_pos (0 - E)); lia|].
      assert (He : e <= 0).
      { apply (uval_le_p10_exp c e 0 Hc). rewrite p10_0. exact Hle. }
      assert (HE : E = e) by (unfold E; lia). rewrite HE.
      rewrite Z.sub_diag, pow10_0, N.mul_1_r.
      apply (uval_le_p10 c e 0 He). rewrite p10_0. exact Hle.
    - apply N.eqb_eq in Hb. subst c. rewrite N.mul_0_l.
      destruct (negb s); cbn; lia. }
  destruct (Z.eqb_spec v 0) as [_|Hne].
  - destruct (fix_finite_shape _ _ _ _ _ H) as (c' & e' & -> & Hz).
    cbn [is_nonneg]. reflexivity.
  - destruct (Z.ltb_spec v 0); [lia|].
    destruct (fix_finite_shape _ _ _ _ _ H) as (c' & e' & -> & _).
    reflexivity.
Qed.

End SignFacts.

(* ===================================================================== *)
(** ** The results dict and [sorted] *)
(* ===================================================================== *)

Module DictFacts.

Import Dec Plinko Spec Ref Report.

(** Reading back the key just written. *)
Lemma getitem_setitem_same {V} (d : list (Z * V)) key v :
  getitem (setitem d key v) key = Ok v.
Proof.
  induction d as [|[k w] d IH]; cbn [setitem getitem].
  - rewrite Z.eqb_refl. reflexivity.
  - destruct (Z.eqb_spec k key) as [->|Hne]; cbn [getitem].
    + rewrite Z.eqb_refl. reflexivity.
    + destruct (Z.eqb_spec k key); [contradiction|]. exact IH.
Qed.

(** Writing a key leaves the other keys alone. *)
Lemma getitem_setitem_other {V} (d : list (Z * V)) key key' v :
  key <> key' -> getitem (setitem d key v) key' = getitem d key'.
Proof.
  intros Hne. induction d as [|[k w] d IH]; cbn [setitem getitem].
  - destruct (Z.eqb_spec key key'); [contradiction|]. reflexivity.
  - destruct (Z.eqb_spec k key) as [->|Hk]; cbn [getitem].
    + destruct (Z.eqb_spec key key'); [contradiction|]. reflexivity.
    + destruct (Z.eqb_spec k key'); [reflexivity|]. exact IH.
Qed.

Lemma keys_setitem {V} (d : list (Z * V)) key v rows :
  In rows (keys (setitem d key v)) <-> In rows (keys d) \/ rows = key.
Proof.
  unfold keys. induction d as [|[k w] d IH]; cbn [setitem map fst In].
  - intuition congruence.
  - destruct (Z.eqb_spec k key) as [->|Hk]; cbn [map fst In].
    + intuition congruence.
    + rewrite IH. tauto.
Qed.

(** Writing keeps the keys distinct. *)
Lemma NoDup_keys_setitem {V} (d : list (Z * V)) key v :
  NoDup (keys d) -> NoDup (keys (setitem d key v)).
Proof.
  unfold keys. induction d as [|[k w] d IH]; cbn [setitem map fst]; intros H.
  - constructor; [intros []|constructor].
  - inversion H as [|? ? Hnin Hd]; subst.
    destruct (Z.eqb_spec k key) as [->|Hk]; cbn [map fst].
    + constructor; assumption.
    + constructor; [|apply IH; exact Hd].
      intros Hin. apply (keys_setitem d key v k) in Hin.
      destruct Hin as [Hin|Heq]; [exact (Hnin Hin)|exact (Hk Heq)].
Qed.

(** [d[key]] succeeds on every key of the dict. *)
Lemma getitem_of_key {V} (d : list (Z * V)) key :
  In key (keys d) -> exists v, getitem d key = Ok v.
Proof.
  unfold keys. induction d as [|[k w] d IH]; cbn [map fst In getitem];
    [intros []|].
  intros [->|Hin].
  - rewrite Z.eqb_refl. eauto.
  - destruct (Z.eqb_spec k key); eauto.
Qed.

Lemma insert_sorted_perm k l : Permutation (insert_sorted k l) (k :: l).
Proof.
  induction l as [|h t IH]; cbn [insert_sorted]; [apply Permutation_refl|].
  destruct (k <=? h); [apply Permutation_refl|].
  eapply Permutation_trans; [apply perm_skip; exact IH|apply perm_swap].
Qed.

(** [sorted(l)] is a rearrangement of [l] ... *)
Lemma sorted_perm l : Permutation (sorted l) l.
Proof.
  unfold sorted. induction l as [|h t IH]; cbn [fold_right];
    [apply Permutation_refl|].
  eapply Permutation_trans; [apply insert_sorted_perm|].
  apply perm_skip. exact IH.
Qed.

Lemma insert_sorted_sorted k l :
  StronglySorted Z.le l -> StronglySorted Z.le (insert_sorted k l).
Proof.
  induction l as [|h t IH]; cbn [insert_sorted]; intros H.
  - constructor; constructor.
  - inversion H as [|? ? Ht Hh]; subst.
    destruct (Z.leb_spec k h) as [Hle|Hgt].
    + constructor; [exact H|].
      constructor; [exact Hle|].
      rewrite Forall_forall in *. intros x Hx. specialize (Hh x Hx). lia.
    + constructor; [apply IH; exact Ht|].
      rewrite Forall_forall in *. intros x Hx.
      apply (Permutation_in _ (insert_sorted_perm k t)) in Hx.
      destruct Hx as [<-|Hx]; [lia|exact (Hh x Hx)].
Qed.

(** ... in ascending order. *)
Lemma sorted_sorted l : StronglySorted Z.le (sorted l).
Proof.
  unfold sorted. induction l as [|h t IH]; cbn [fold_right]; [constructor|].
  apply insert_sorted_sorted. exact IH.
Qed.

(** The summary loop over keys of the dict never misses an entry and
    prints one row per key, in the order given. *)
Lemma summary_over_keys results : forall rows_list,
  Forall (fun rows => In rows (keys results)) rows_list ->
  exists out,
    summary results rows_list = (out, Ok tt) /\
    map summary_key out = map Some rows_list /\
    forallb is_summary_row out = true.
Proof.
  induction rows_list as [|rows rest IH]; intros H.
  - exists []. repeat split.
  - inversion H as [|? ? Hin Hrest]; subst.
    destruct (IH Hrest) as (out & Hs & Hk & Ha).
    destruct (getitem_of_key results rows Hin) as (rtp & Hget).
    eexists. cbn [summary]. rewrite Hget, iobind_lift_ok, iobind_print, Hs.
    cbn [fst snd]. split; [reflexivity|].
    cbn [map summary_key forallb is_summary_row andb].
    rewrite Hk. split; [reflexivity|exact Ha].
Qed.

(** The first loop of [main]: the reports are printed in order and every
    returned RTP is stored under its row count. *)
Lemma evaluate_all_returns : forall rows_list results out results',
  evaluate_all rows_list results = (out, Ok results') ->
  out = reports rows_list /\
  (forall rows, In rows rows_list ->
     getitem results' rows = snd (calculate_rtp rows)) /\
  (forall rows, ~ In rows rows_list ->
     getitem results' rows = getitem results rows) /\
  (forall rows, In rows (keys results') <->
     In rows (keys results) \/ In rows rows_list) /\
  (NoDup (keys results) -> NoDup (keys results')).
Proof.
  induction rows_list as [|rows rest IH]; intros results out results' H.
  - cbn in H. injection H as <- <-. unfold reports. cbn.
    repeat split; tauto.
  - cbn [evaluate_all] in H.
    destruct (calculate_rtp rows) as [o1 [rtp|ex]] eqn:Hcalc; [|discriminate].
    rewrite iobind_pair in H.
    destruct (evaluate_all rest (setitem results rows rtp)) as [o2 r2] eqn:Hrest.
    cbn [fst snd] in H. injection H as <- ->.
    destruct (IH _ _ _ Hrest) as (Hout & Hin & Hnot & Hkeys & Hnd).
    split; [|split; [|split; [|split]]].
    + unfold reports in *. cbn [map concat]. rewrite Hcalc. cbn [fst].
      rewrite Hout. reflexivity.
    + intros r [<-|Hr].
      * destruct (in_dec Z.eq_dec rows rest) as [Hi|Hn]; [exact (Hin _ Hi)|].
        rewrite (Hnot _ Hn), getitem_setitem_same, Hcalc. reflexivity.
      * exact (Hin _ Hr).
    + intros r Hr. cbn [In] in Hr.
      rewrite (Hnot r) by tauto.
      apply getitem_setitem_other. intros ->. tauto.
    + intros r. rewrite Hkeys, keys_setitem. cbn [In].
      intuition congruence.
    + intros Hd. apply Hnd. apply NoDup_keys_setitem. exact Hd.
Qed.

End DictFacts.

(* ===================================================================== *)
(** ** Zero factors and the degenerate biases *)
(* ===================================================================== *)

Module ZeroFacts.

Import Dec Plinko Spec Ref.
Import DecFacts FixFacts ValueFacts CtxFacts BiasFacts SignFacts.


Lemma mul_zero_r_ok ctx sa ca ea sb eb :
  exists t, mul ctx (Finite sa ca ea) (Finite sb 0 eb) = Ok t /\ is_zero t = true.
Proof.
  cbn [mul]. rewrite N.mul_0_r. unfold fix_finite. cbn.
  eexists. split; reflexivity.
Qed.

Lemma mul_zero_l_ok ctx sa ea sb cb eb :
  exists t, mul ctx (Finite sa 0 ea) (Finite sb cb eb) = Ok t /\ is_zero t = true.
Proof.
  cbn [mul]. rewrite N.mul_0_l. unfold fix_finite. cbn.
  eexists. split; reflexivity.
Qed.

(** A zero to a positive power is a zero; to the power 0 it is an
    InvalidOperation. *)
Lemma pow_zero_pos ctx s e n :
  0 < n -> pow ctx (Finite s 0 e) n = Ok (Finite (s && Z.odd n) 0 0).
Proof.
  intros Hn. unfold pow. cbn [N.eqb].
  destruct (Z.eqb_spec n 0); [lia|]. destruct (Z.ltb_spec n 0); [lia|].
  reflexivity.
Qed.

Lemma pow_zero_zero ctx s e : pow ctx (Finite s 0 e) 0 = Raise InvalidOperation.
Proof. reflexivity. Qed.

(** [1 - 0] is a one of the context, whatever the sign and the exponent of
    the zero. *)
Lemma sub_one_zero s e :
  exists cq eq,
    sub ctx one (Finite s 0 e) = Ok (Finite false cq eq) /\
    (0 < uval cq eq)%Q /\ (uval cq eq <= 1)%Q.
Proof.
  unfold sub, one. cbn [copy_negate add].
  change ((1 =? 0)%N) with false. cbn [andb].
  set (E := Z.min 0 e).
  assert (Hv : scaled false 1 0 E + scaled (negb s) 0 e E = Z.of_N (pow10 (0 - E))).
  { unfold scaled. rewrite N.mul_1_l, N.mul_0_l. destruct (negb s); cbn; lia. }
  rewrite Hv. pose proof (pow10_pos (0 - E)) as Hp.
  destruct (Z.eqb_spec (Z.of_N (pow10 (0 - E))) 0); [lia|].
  destruct (Z.ltb_spec (Z.of_N (pow10 (0 - E))) 0); [lia|].
  rewrite Zabs2N.id.
  assert (HE : E = - (0 - E)) by lia.
  assert (Hu : (uval (pow10 (0 - E)) E == 1)%Q).
  { rewrite HE at 2. apply uval_pow10. unfold E. lia. }
  destruct (fix_ctx_value false (pow10 (0 - E)) E 0 ltac:(lia))
    as (c' & e' & Hfix & _ & Hle & Herr).
  { rewrite Hu, p10_0. apply Qle_refl. }
  exists c', e'. split; [exact Hfix|].
  rewrite p10_0 in Hle. split; [|exact Hle].
  rewrite Hu in Herr. change (0 - 49) with (-49) in Herr.
  pose proof (p10_lt (-49) 0 ltac:(lia)) as Hlt. rewrite p10_0 in Hlt.
  apply Qabs_Qle_condition in Herr. lra.
Qed.

(** [1 - 1] is a zero, whatever the number of zeros 1.00...0 is written
    with. *)
Lemma sub_one_unit j :
  0 <= j -> exists e0, sub ctx one (unit_bias j) = Ok (Finite false 0 e0).
Proof.
  intros Hj. unfold sub, one, unit_bias. cbn [copy_negate add negb].
  change ((1 =? 0)%N) with false. cbn [andb].
  assert (HE : Z.min 0 (- j) = - j) by lia. rewrite HE.
  assert (Hv : scaled false 1 0 (- j) + scaled true (pow10 j) (- j) (- j) = 0).
  { unfold scaled. rewrite N.mul_1_l, Z.sub_diag, pow10_0, N.mul_1_r.
    replace (0 - - j) with j by lia. lia. }
  rewrite Hv. cbn [Z.eqb]. unfold fix_finite. cbn [N.eqb]. eauto.
Qed.

(** A power of 1.00...0 is a one. *)
Lemma pow_unit j n :
  0 <= j -> 0 <= n ->
  exists c e, pow ctx (unit_bias j) n = Ok (Finite false c e) /\ (uval c e == 1)%Q.
Proof.
  intros Hj Hn. unfold pow, unit_bias. cbn [andb].
  pose proof (pow10_pos j) as Hp.
  destruct (N.eqb_spec (pow10 j) 0); [lia|].
  destruct (Z.eqb_spec n 0).
  - exists 1%N, 0. split; [reflexivity|]. apply (uval_pow10 0). lia.
  - assert (Hone : is_abs_one (pow10 j) (- j) = true).
    { unfold is_abs_one. replace (- - j) with j by lia.
      rewrite N.eqb_refl. destruct (Z.leb_spec (- j) 0); [reflexivity|lia]. }
    rewrite Hone. destruct (Z.ltb_spec n 0); [lia|].
    eexists _, _. split; [reflexivity|].
    apply uval_pow10. rewrite ctx_prec. nia.
Qed.

End ZeroFacts.

Import Ref SignFacts DictFacts ZeroFacts.

(* ===================================================================== *)
(** ** Further properties of the script *)
(* ===================================================================== *)

(** X1: for 0 <= k <= n and a finite p with 0 <= p <= 1 (the end points
    included, whatever the exponent of p), binomial_probability(n, k, p)
    never returns a negative number or an infinity: what it returns is
    finite and not below zero. *)
Theorem probability_nonnegative :
  forall (rows k : Z) (bias d : Decimal),
    0 <= k <= rows ->
    is_finite bias = true ->
    (0 <= value bias)%Q -> (value bias <= 1)%Q ->
    binomial_probability rows k bias = Ok d ->
    is_finite d = true /\ (0 <= value d)%Q.
Proof.
  intros rows k bias d Hk Hfin Hpos Hle H.
  destruct bias as [s c e|s]; [|discriminate].
  pose proof (nonneg_of_value s c e Hpos) as Hb.
  assert (Hu : (uval c e <= 1)%Q).
  { destruct s; [|rewrite value_finite in Hle; exact Hle].
    cbn [is_nonneg negb orb] in Hb. apply N.eqb_eq in Hb. subst c.
    rewrite uval_0. discriminate. }
  apply is_nonneg_value.
  unfold binomial_probability in H.
  rewrite (comb_binom rows k Hk) in H. cbn [bind] in H.
  rewrite of_int_N in H.
  destruct (pow ctx (Finite s c e) k) as [p_success|] eqn:Hps; [|discriminate].
  cbn [bind] in H.
  destruct (sub ctx one (Finite s c e)) as [q|] eqn:Hq; [|discriminate].
  cbn [bind] in H.
  destruct (pow ctx q (rows - k)) as [p_failure|] eqn:Hpf; [|discriminate].
  cbn [bind] in H.
  destruct (mul ctx (Finite false (binom (Z.to_nat rows) (Z.to_nat k)) 0) p_success)
    as [t|] eqn:Ht; [|discriminate].
  cbn [bind] in H.
  pose proof (pow_nonneg _ _ _ _ Hb (proj1 Hk) Hps) as N1.
  pose proof (sub_one_nonneg _ _ _ _ _ Hb Hu Hq) as N2.
  assert (Hnk : 0 <= rows - k) by lia.
  pose proof (pow_nonneg _ _ _ _ N2 Hnk Hpf) as N3.
  pose proof (mul_nonneg _ (Finite false _ 0) _ _ eq_refl N1 Ht) as N4.
  exact (mul_nonneg _ _ _ _ N4 N3 H).
Qed.

Lemma probability_nonnegative_witness :
  is_finite (Finite false 26864869439767760223036176223629019833607692003381 (-51)) = true /\
  (0 <= value (Finite false 26864869439767760223036176223629019833607692003381 (-51)))%Q.
Proof.
  apply (probability_nonnegative 11 2 LEFT_PROBABILITY).
  - lia.
  - reflexivity.
  - vm_compute. discriminate.
  - vm_compute. discriminate.
  - vm_compute. reflexivity.
Defined.

(** X2: at a bias of zero (0, -0, 0.00, ... of any exponent) the bucket
    k = 0, the only one with a positive probability, raises
    InvalidOperation on 0 ** 0, while every bucket 0 < k <= n returns a
    zero. *)
Theorem zero_bias :
  (forall (rows : Z) (s : bool) (e : Z),
     0 <= rows ->
     binomial_probability rows 0 (Finite s 0 e) = Raise InvalidOperation) /\
  (forall (rows k : Z) (s : bool) (e : Z),
     0 < k <= rows ->
     exists d, binomial_probability rows k (Finite s 0 e) = Ok d /\
               is_zero d = true).
Proof.
  split.
  - intros rows s e Hrows. unfold binomial_probability.
    rewrite (comb_0_r rows Hrows). cbn [bind].
    rewrite pow_zero_zero. reflexivity.
  - intros rows k s e Hk. unfold binomial_probability.
    rewrite (comb_binom rows k ltac:(lia)). cbn [bind]. rewrite of_int_N.
    rewrite (pow_zero_pos ctx s e k ltac:(lia)). cbn [bind].
    destruct (sub_one_zero s e) as (cq & eq & Hq & Hpos & Hle).
    rewrite Hq. cbn [bind].
    destruct (pow_value cq eq (rows - k) Hpos Hle ltac:(lia))
      as (c' & e' & Hpf & _).
    rewrite Hpf. cbn [bind].
    destruct (mul_zero_r_ok ctx false (binom (Z.to_nat rows) (Z.to_nat k)) 0
                (s && Z.odd k) 0) as (t & Ht & Hz).
    rewrite Ht. cbn [bind].
    destruct t as [st ct et|st]; [|discriminate].
    cbn [is_zero] in Hz. apply N.eqb_eq in Hz. subst ct.
    destruct (mul_zero_l_ok ctx st et false c' e') as (d & Hd & Hdz).
    exists d. split; assumption.
Qed.

Lemma zero_bias_witness :
  binomial_probability 11 0 (Finite false 0 0) = Raise InvalidOperation /\
  exists d, binomial_probability 11 3 (Finite false 0 (-3)) = Ok d /\
            is_zero d = true.
Proof.
  split.
  - apply (proj1 zero_bias 11 false 0). lia.
  - apply (proj2 zero_bias 11 3 false (-3)). lia.
Defined.

(** X3: at a bias of one (1, 1.0, 1.00, ...) the bucket k = n, the only
    one with a positive probability, raises InvalidOperation on 0 ** 0,
    while every bucket 0 <= k < n <= 999999 returns a zero. *)
Theorem unit_bias_probability :
  (forall rows j : Z,
     0 <= rows -> 0 <= j ->
     binomial_probability rows rows (unit_bias j) = Raise InvalidOperation) /\
  (forall rows k j : Z,
     0 <= k < rows -> rows <= 999999 -> 0 <= j ->
     exists d, binomial_probability rows k (unit_bias j) = Ok d /\
               is_zero d = true).
Proof.
  split.
  - intros rows j Hrows Hj. unfold binomial_probability.
    rewrite (comb_diag rows Hrows). cbn [bind].
    destruct (pow_unit j rows Hj Hrows) as (c & e & Hps & _).
    rewrite Hps. cbn [bind].
    destruct (sub_one_unit j Hj) as (e0 & Hq). rewrite Hq. cbn [bind].
    rewrite Z.sub_diag, pow_zero_zero. reflexivity.
  - intros rows k j Hk Hrows Hj. unfold binomial_probability.
    rewrite (comb_binom rows k ltac:(lia)). cbn [bind]. rewrite of_int_N.
    destruct (pow_unit j k Hj ltac:(lia)) as (c & e & Hps & Hone).
    rewrite Hps. cbn [bind].
    destruct (sub_one_unit j Hj) as (e0 & Hq). rewrite Hq. cbn [bind].
    rewrite (pow_zero_pos ctx false e0 (rows - k) ltac:(lia)). cbn [bind andb].
    set (b := binom (Z.to_nat rows) (Z.to_nat k)).
    assert (Hb : (uval (b * c) (0 + e) <= p10 rows)%Q).
    { rewrite uval_mul, Hone, Qmult_1_r.
      apply (uval_le_p10 b 0 rows ltac:(lia)).
      rewrite Z.sub_0_r.
      pose proof (binom_lt_pow10 (Z.to_nat rows) (Z.to_nat k) ltac:(lia)) as Hlt.
      rewrite Z2Nat.id in Hlt by lia. fold b in Hlt. lia. }
    destruct (fix_ctx_value false (b * c) (0 + e) rows ltac:(lia) Hb)
      as (c1 & e1 & Hfix & _).
    cbn [mul]. cbn [xorb]. rewrite Hfix. cbn [bind].
    destruct (mul_zero_r_ok ctx false c1 e1 false 0) as (d & Hd & Hz).
    exists d. split; assumption.
Qed.

Lemma unit_bias_probability_witness :
  binomial_probability 11 11 (unit_bias 2) = Raise InvalidOperation /\
  exists d, binomial_probability 11 3 (unit_bias 2) = Ok d /\
            is_zero d = true.
Proof.
  split.
  - apply (proj1 unit_bias_probability 11 2); lia.
  - apply (proj2 unit_bias_probability 11 3 2); lia.
Defined.



Lemma supported_returns rows :
  In rows supported_rows ->
  exists out returned, calculate_rtp rows = (out, Ok returned).
Proof.
  intros Hin.
  destruct (clean_run_inv rows (supported_clean rows Hin))
    as (_ & _ & out & returned & _ & Hcalc & _).
  eauto.
Qed.

Lemma evaluate_all_supported : forall rows_list results,
  Forall (fun rows => In rows supported_rows) rows_list ->
  exists results',
    evaluate_all rows_list results = (reports rows_list, Ok results').
Proof.
  induction rows_list as [|rows rest IH]; intros results H.
  - exists results. reflexivity.
  - inversion H as [|? ? Hin Hrest]; subst.
    destruct (supported_returns rows Hin) as (o1 & rtp & Hcalc).
    destruct (IH (setitem results rows rtp) Hrest) as (results' & Hev).
    exists results'. cbn [evaluate_all]. rewrite Hcalc, iobind_pair, Hev.
    unfold reports. cbn [fst snd map concat]. rewrite Hcalc. reflexivity.
Qed.

(** X5: the first loop of main, over any list of supported row counts and
    any starting dict, runs to the end; it prints the reports in order,
    and afterwards results[rows] is the RTP calculate_rtp(rows) returned
    for every row count of the list, the entries of all other keys are
    what they were, and the keys stay distinct. *)
Theorem evaluate_all_stores_returned_rtp :
  forall (rows_list : list Z) (results : list (Z * Flt.float)),
    Forall (fun rows => In rows supported_rows) rows_list ->
    exists results',
      evaluate_all rows_list results = (reports rows_list, Ok results') /\
      (forall rows, In rows rows_list ->
         getitem results' rows = snd (calculate_rtp rows)) /\
      (forall rows, ~ In rows rows_list ->
         getitem results' rows = getitem results rows) /\
      (forall rows, In rows (keys results') <->
         In rows (keys results) \/ In rows rows_list) /\
      (NoDup (keys results) -> NoDup (keys results')).
Proof.
  intros rows_list results H.
  destruct (evaluate_all_supported rows_list results H) as (results' & Hev).
  exists results'. split; [exact Hev|].
  destruct (evaluate_all_returns _ _ _ _ Hev) as (_ & Hin & Hnot & Hkeys & Hnd).
  repeat split; try assumption; apply Hkeys.
Qed.

Lemma evaluate_all_stores_returned_rtp_witness :
  exists results',
    evaluate_all [12; 11; 12] [] = (reports [12; 11; 12], Ok results') /\
    (forall rows, In rows [12; 11; 12] ->
       getitem results' rows = snd (calculate_rtp rows)) /\
    (forall rows, ~ In rows [12; 11; 12] ->
       getitem results' rows = getitem [] rows) /\
    (forall rows, In rows (keys results') <->
       In rows (keys (@nil (Z * Flt.float))) \/ In rows [12; 11; 12]) /\
    (NoDup (keys (@nil (Z * Flt.float))) -> NoDup (keys results')).
Proof.
  apply (evaluate_all_stores_returned_rtp [12; 11; 12] []).
  repeat (constructor; [cbn; lia|]). constructor.
Defined.

(** X6: a row count without a table stops the first loop of main: the
    reports of the row counts before it are printed in full, nothing is
    printed for it or for the row counts after it, and the KeyError
    leaves the loop, so that no results dict is produced. *)
Theorem evaluate_all_stops_at_unsupported :
  forall (before after : list Z) (rows : Z) (results : list (Z * Flt.float)),
    Forall (fun r => In r supported_rows) before ->
    ~ In rows supported_rows ->
    evaluate_all (before ++ rows :: after) results
    = (reports before, Raise KeyError).
Proof.
  induction before as [|r before IH]; intros after rows results Hb Hn.
  - assert (Hcalc : calculate_rtp rows = ([], Raise KeyError)).
    { unfold calculate_rtp.
      rewrite (getitem_missing MULTIPLIER_TABLES rows Hn). reflexivity. }
    cbn [app evaluate_all]. rewrite Hcalc. reflexivity.
  - inversion Hb as [|? ? Hin Hrest]; subst.
    destruct (supported_returns r Hin) as (o1 & rtp & Hcalc).
    cbn [app evaluate_all]. rewrite Hcalc, iobind_pair.
    rewrite (IH after rows (setitem results r rtp) Hrest Hn).
    unfold reports. cbn [fst snd map concat]. rewrite Hcalc. reflexivity.
Qed.

Lemma evaluate_all_stops_at_unsupported_witness :
  evaluate_all ([11] ++ 10 :: [12]) [] = (reports [11], Raise KeyError).
Proof.
  apply (evaluate_all_stops_at_unsupported [11] [12] 10 []).
  - constructor; [cbn; lia|constructor].
  - cbn. lia.
Defined.

(** X7: the summary loop of main, [for rows in sorted(results.keys())],
    never raises a KeyError, whatever the dict holds: it prints summary
    rows only, exactly one per key, and the keys are visited in ascending
    order. *)
Theorem summary_of_sorted_keys :
  forall results : list (Z * Flt.float),
    exists out,
      summary results (sorted (keys results)) = (out, Ok tt) /\
      forallb is_summary_row out = true /\
      map summary_key out = map Some (sorted (keys results)) /\
      StronglySorted Z.le (sorted (keys results)) /\
      Permutation (sorted (keys results)) (keys results).
Proof.
  intros results.
  destruct (summary_over_keys results (sorted (keys results)))
    as (out & Hs & Hk & Ha).
  { rewrite Forall_forall. intros rows Hin.
    exact (Permutation_in _ (sorted_perm (keys results)) Hin). }
  exists out. split; [exact Hs|]. split; [exact Ha|]. split; [exact Hk|].
  split; [apply sorted_sorted|apply sorted_perm].
Qed.

(** X11: the total probability the sanity check looks at depends on the
    row count and on the number of table entries only, not on the
    multipliers: two runs of the bucket loop over tables of the same
    length, from the same total_prob, end with the same total_prob. *)
Theorem total_prob_ignores_multipliers :
  forall (rows : Z) (ms ms' : list Decimal) (i : Z)
         (tr tr' tp : Decimal) out out' totals totals',
    length ms = length ms' ->
    bucket_loop rows ms i tr tp = (out, Ok totals) ->
    bucket_loop rows ms' i tr' tp = (out', Ok totals') ->
    snd totals = snd totals'.
Proof.
  intros rows ms. induction ms as [|m rest IH];
    intros ms' i tr tr' tp out out' totals totals' Hlen H H'.
  - destruct ms' as [|m' rest']; [|discriminate].
    cbn in H, H'. injection H as _ <-. injection H' as _ <-. reflexivity.
  - destruct ms' as [|m' rest']; [discriminate|].
    cbn [length] in Hlen. injection Hlen as Hlen.
    cbn [bucket_loop] in H, H'.
    destruct (binomial_probability rows i LEFT_PROBABILITY) as [prob|e];
      [rewrite iobind_lift_ok in H, H'|discriminate].
    destruct (add ctx tp prob) as [tp1|e];
      [rewrite iobind_lift_ok in H, H'|discriminate].
    destruct (mul ctx prob m) as [c|e];
      [rewrite iobind_lift_ok in H|discriminate].
    destruct (mul ctx prob m') as [c'|e];
      [rewrite iobind_lift_ok in H'|discriminate].
    destruct (add ctx tr c) as [tr1|e];
      [rewrite iobind_lift_ok in H|discriminate].
    destruct (add ctx tr' c') as [tr1'|e];
      [rewrite iobind_lift_ok in H'|discriminate].
    rewrite iobind_print in H, H'.
    destruct (bucket_loop rows rest (i + 1) tr1 tp1) as [o1 r1] eqn:Hr.
    destruct (bucket_loop rows rest' (i + 1) tr1' tp1) as [o1' r1'] eqn:Hr'.
    cbn [fst snd] in H, H'. injection H as _ ->. injection H' as _ ->.
    exact (IH rest' (i + 1) tr1 tr1' tp1 o1 o1' totals totals' Hlen Hr Hr').
Qed.

Lemma total_prob_ignores_multipliers_witness :
  snd (Finite false 97709974367248736586365451074982318888664350510120 (-53),
       Finite false 48854987183624368293182725537491159444332175255060 (-53))
  = snd (Finite false 14656496155087310487954817661247347833299652576518 (-52),
         Finite false 48854987183624368293182725537491159444332175255060 (-53)).
Proof.
  eapply (total_prob_ignores_multipliers 11 [lit 2 0] [lit 3 0] 0 zero zero zero).
  - reflexivity.
  - vm_compute. reflexivity.
  - vm_compute. reflexivity.
Defined.

(** The literal 0.99 as a binary64. *)
Lemma f_0_99_bits : Flt.f_0_99 = S754_finite false 8917127262193582 (-53).
Proof. vm_compute. reflexivity. Qed.

(** Whatever is above 1.0 is above 0.99. *)
Lemma above_one_above_near rtp :
  Flt.fgt rtp Flt.f_1_0 = true -> Flt.fgt rtp Flt.f_0_99 = true.
Proof.
  rewrite f_0_99_bits. unfold Flt.fgt, Flt.f_1_0, SFltb.
  destruct rtp as [s|s| |s m e]; cbn [SFcompare]; try discriminate;
    try (destruct s; intros H; [discriminate|reflexivity]).
  destruct s; [discriminate|].
  destruct (Z.compare_spec (-52) e) as [<-|Hlt|Hgt]; try discriminate.
  - intros _. reflexivity.
  - intros _. destruct (Z.compare_spec (-53) e) as [Heq|_|Hgt];
      [lia|reflexivity|lia].
Qed.

(** X12: the three statuses of the summary are three nested thresholds:
    a row is "OK" exactly when its RTP is not above 0.99 (a NaN
    included), "OK (Near target)" exactly when it is above 0.99 and not
    above 1.0, and "PLAYER ADVANTAGE" exactly when it is above 1.0, which
    puts it above 0.99 as well. *)
Theorem status_thresholds :
  forall rtp : Flt.float,
    (classify rtp = OkStatus <-> Flt.fgt rtp Flt.f_0_99 = false) /\
    (classify rtp = OkNearTarget <->
       Flt.fgt rtp Flt.f_0_99 = true /\ Flt.fgt rtp Flt.f_1_0 = false) /\
    (classify rtp = PlayerAdvantage <-> Flt.fgt rtp Flt.f_1_0 = true) /\
    (Flt.fgt rtp Flt.f_1_0 = true -> Flt.fgt rtp Flt.f_0_99 = true) /\
    classify S754_nan = OkStatus.
Proof.
  intros rtp. pose proof (above_one_above_near rtp) as Hnest.
  unfold classify.
  destruct (Flt.fgt rtp Flt.f_1_0) eqn:H1.
  - rewrite (Hnest eq_refl).
    repeat split; try discriminate; try tauto;
      intros []; discriminate.
  - destruct (Flt.fgt rtp Flt.f_0_99) eqn:H2;
      repeat split; try discriminate; try tauto; intros []; discriminate.
Qed.

(* ===================================================================== *)
(** ** The six runs of the script *)
(* ===================================================================== *)

(** The accumulators [(total_rtp, total_prob)] each run of the loop ends
    with. *)
Lemma totals_11 :
  run_totals 11
  = Ok (Finite false 99160160753662137935791078366088922199249277921676 (-50),
        Finite false 10000000000000000000000000000000000000000000000000 (-49)).
Proof. vm_compute. reflexivity. Qed.

Lemma totals_12 :
  run_totals 12
  = Ok (Finite false 99116216134838905058746429464416601624488868426325 (-50),
        Finite false 10000000000000000000000000000000000000000000000000 (-49)).
Proof. vm_compute. reflexivity. Qed.

Lemma totals_13 :
  run_totals 13
  = Ok (Finite false 99086920027710009748993064588928439902305687170982 (-50),
        Finite false 10000000000000000000000000000000000000000000000000 (-49)).
Proof. vm_compute. reflexivity. Qed.

Lemma totals_14 :
  run_totals 14
  = Ok (Finite false 98978278235781926113975755788670000156069085285068 (-50),
        Finite false 99999999999999999999999999999999999999999999999999 (-50)).
Proof. vm_compute. reflexivity. Qed.

Lemma totals_15 :
  run_totals 15
  = Ok (Finite false 99026496833046041020450906352282270807624504909218 (-50),
        Finite false 10000000000000000000000000000000000000000000000000 (-49)).
Proof. vm_compute. reflexivity. Qed.

Lemma totals_16 :
  run_totals 16
  = Ok (Finite false 98976447728088466239090474369737098267794886388303 (-50),
        Finite false 10000000000000000000000000000000000000000000000000 (-49)).
Proof. vm_compute. reflexivity. Qed.

(** A call whose loop ends with [(total_rtp, total_prob)], whose two
    percentages are computed without an exception and whose sanity check
    passes, prints the header, the bucket rows and the footer, and returns
    [float(total_rtp)]. *)
Lemma calculate_rtp_of_totals rows ms tr tp right pct edge edge_pct :
  getitem MULTIPLIER_TABLES rows = Ok ms ->
  run_totals rows = Ok (tr, tp) ->
  sub ctx one LEFT_PROBABILITY = Ok right ->
  mul ctx tr (of_int 100) = Ok pct ->
  sub ctx one tr = Ok edge ->
  mul ctx edge (of_int 100) = Ok edge_pct ->
  anomaly tp = false ->
  calculate_rtp rows
  = (header rows right ++ expected_rows rows LEFT_PROBABILITY ms 0
       ++ footer tr tp pct edge_pct,
     Ok (Flt.of_decimal tr)).
Proof.
  intros Hget Htot Hright Hpct Hedge Hedge_pct Hanom.
  unfold run_totals in Htot. rewrite Hget in Htot. cbn [bind] in Htot.
  destruct (bucket_loop rows ms 0 zero zero) as [rows_out r] eqn:Hloop.
  cbn [snd] in Htot. subst r.
  pose proof (bucket_loop_expected rows ms 0 zero zero rows_out (tr, tp) Hloop)
    as Hrows.
  unfold calculate_rtp. rewrite Hget, iobind_lift_ok.
  rewrite !iobind_print. cbn [fst snd].
  rewrite Hright, iobind_lift_ok.
  rewrite !iobind_print. cbn [fst snd].
  fold zero. rewrite Hloop, iobind_pair.
  rewrite !iobind_print. cbn [fst snd].
  rewrite Hpct, iobind_lift_ok.
  rewrite !iobind_print. cbn [fst snd].
  rewrite Hedge, iobind_lift_ok, Hedge_pct, iobind_lift_ok.
  rewrite !iobind_print. cbn [fst snd].
  rewrite Hanom, !iobind_ret. cbn [fst snd ret].
  rewrite <- Hrows. unfold header, footer. cbn [app].
  reflexivity.
Qed.

(** A supported row count returns the float of the total its loop ends
    with. *)
Lemma returned_of_totals rows tr tp :
  In rows supported_rows ->
  run_totals rows = Ok (tr, tp) ->
  snd (calculate_rtp rows) = Ok (Flt.of_decimal tr).
Proof.
  intros Hin Htot.
  destruct (clean_run_inv rows (supported_clean rows Hin))
    as (_ & _ & out & returned & _ & Hcalc & _).
  destruct (calculate_rtp_returns rows out returned Hcalc)
    as (ms & rows_out & tr1 & tp1 & _ & _ & _ & Hget & Hloop & Hret & _).
  pose proof (run_totals_of_loop rows ms rows_out (tr1, tp1) Hget Hloop) as H1.
  rewrite Htot in H1. injection H1 as <- <-.
  rewrite Hcalc. cbn [snd]. rewrite Hret. reflexivity.
Qed.

(** The float each supported row count returns. *)
Lemma returned_11 :
  snd (calculate_rtp 11) = Ok (S754_finite false 8931553260403826 (-53)).
Proof.
  rewrite (returned_of_totals 11 _ _ ltac:(cbn; lia) totals_11).
  vm_compute. reflexivity.
Qed.

Lemma returned_12 :
  snd (calculate_rtp 12) = Ok (S754_finite false 8927595081024681 (-53)).
Proof.
  rewrite (returned_of_totals 12 _ _ ltac:(cbn; lia) totals_12).
  vm_compute. reflexivity.
Qed.

Lemma returned_13 :
  snd (calculate_rtp 13) = Ok (S754_finite false 8924956322281699 (-53)).
Proof.
  rewrite (returned_of_totals 13 _ _ ltac:(cbn; lia) totals_13).
  vm_compute. reflexivity.
Qed.

Lemma returned_14 :
  snd (calculate_rtp 14) = Ok (S754_finite false 8915170739608815 (-53)).
Proof.
  rewrite (returned_of_totals 14 _ _ ltac:(cbn; lia) totals_14).
  vm_compute. reflexivity.
Qed.

Lemma returned_15 :
  snd (calculate_rtp 15) = Ok (S754_finite false 8919513884742235 (-53)).
Proof.
  rewrite (returned_of_totals 15 _ _ ltac:(cbn; lia) totals_15).
  vm_compute. reflexivity.
Qed.

Lemma returned_16 :
  snd (calculate_rtp 16) = Ok (S754_finite false 8915005862133492 (-53)).
Proof.
  rewrite (returned_of_totals 16 _ _ ltac:(cbn; lia) totals_16).
  vm_compute. reflexivity.
Qed.

(** The table and the two percentages of a row count, evaluated from the
    accumulators [Htot] gives. *)
Ltac report_row rows Htot :=
  lazymatch type of Htot with
  | _ = Ok (?tr, ?tp) =>
      let ms := eval vm_compute in (getitem MULTIPLIER_TABLES rows) in
      let pct := eval vm_compute in (mul ctx tr (of_int 100)) in
      let edge := eval vm_compute in (sub ctx one tr) in
      lazymatch ms with
      | Ok ?ms =>
          lazymatch pct with
          | Ok ?pct =>
              lazymatch edge with
              | Ok ?edge =>
                  let edge_pct := eval vm_compute in (mul ctx edge (of_int 100)) in
                  lazymatch edge_pct with
                  | Ok ?edge_pct =>
                      exists ms, tr, tp, pct, edge_pct;
                      split; [vm_compute; reflexivity|];
                      split; [exact Htot|];
                      split;
                        [apply (calculate_rtp_of_totals rows ms tr tp
                                  (Finite false 500025 (-6)) pct edge edge_pct);
                         [vm_compute; reflexivity|exact Htot|
                          vm_compute; reflexivity ..]|];
                      split; [vm_compute; reflexivity|];
                      split; vm_compute; reflexivity
                  end
              end
          end
      end
  end.

(** X8: for every supported row count the report of calculate_rtp is the
    eight header lines (right probability 0.500025), one bucket row per
    bucket 0 .. rows, and the six footer lines, with no warning line; the
    decimals behind the THEORETICAL RTP and HOUSE EDGE lines are exactly
    100 * total_rtp and 100 * (1 - total_rtp) (the 50-digit arithmetic
    loses nothing there), and the total probability prints as the float
    1.0. *)
Theorem report_of_supported_rows :
  forall rows : Z,
    In rows supported_rows ->
    exists multipliers total_rtp total_prob percent edge_percent,
      getitem MULTIPLIER_TABLES rows = Ok multipliers /\
      run_totals rows = Ok (total_rtp, total_prob) /\
      calculate_rtp rows
      = (header rows (Finite false 500025 (-6))
           ++ expected_rows rows LEFT_PROBABILITY multipliers 0
           ++ footer total_rtp total_prob percent edge_percent,
         Ok (Flt.of_decimal total_rtp)) /\
      (value percent == 100 * value total_rtp)%Q /\
      (value edge_percent == 100 * (1 - value total_rtp))%Q /\
      Flt.of_decimal total_prob = Flt.f_1_0.
Proof.
  intros rows Hin. cbn [supported_rows In] in Hin.
  destruct Hin as [<-|[<-|[<-|[<-|[<-|[<-|[]]]]]]].
  - report_row 11 totals_11.
  - report_row 12 totals_12.
  - report_row 13 totals_13.
  - report_row 14 totals_14.
  - report_row 15 totals_15.
  - report_row 16 totals_16.
Qed.

Lemma report_of_supported_rows_witness :
  exists multipliers total_rtp total_prob percent edge_percent,
    getitem MULTIPLIER_TABLES 16 = Ok multipliers /\
    run_totals 16 = Ok (total_rtp, total_prob) /\
    calculate_rtp 16
    = (header 16 (Finite false 500025 (-6))
         ++ expected_rows 16 LEFT_PROBABILITY multipliers 0
         ++ footer total_rtp total_prob percent edge_percent,
       Ok (Flt.of_decimal total_rtp)) /\
    (value percent == 100 * value total_rtp)%Q /\
    (value edge_percent == 100 * (1 - value total_rtp))%Q /\
    Flt.of_decimal total_prob = Flt.f_1_0.
Proof.
  apply (report_of_supported_rows 16).
  cbn. lia.
Defined.

Lemma accurate_sound (v f exact : Q) :
  accurate v f exact = true ->
  (Qabs (v - exact) <= 1 # 10 ^ 49)%Q /\
  (Qabs (f - exact) <= 1 # 2 ^ 54)%Q /\
  (98 # 100 < exact)%Q /\ (exact < 1)%Q.
Proof.
  unfold accurate. intros H.
  apply andb_prop in H as [H H4]. apply andb_prop in H as [H H3].
  apply andb_prop in H as [H1 H2].
  apply Qle_bool_iff in H1. apply Qle_bool_iff in H2.
  apply negb_true_iff in H3. apply negb_true_iff in H4.
  split; [exact H1|]. split; [exact H2|]. split.
  - apply Qnot_le_lt. intros Hle. apply Qle_bool_iff in Hle. congruence.
  - apply Qnot_le_lt. intros Hle. apply Qle_bool_iff in Hle. congruence.
Qed.

(** Each step of the exact sum adds the term of one bucket. *)
Lemma exact_rtp_from_cons n p m rest i :
  (exact_rtp_from n p (m :: rest) i
   == exact_probability n i p * m + exact_rtp_from n p rest (S i))%Q.
Proof. cbn [exact_rtp_from]. apply Qred_correct. Qed.

Ltac rtp_row rows Htot Hret :=
  lazymatch type of Htot with
  | _ = Ok (?tr, ?tp) =>
      lazymatch type of Hret with
      | _ = Ok ?f =>
          let ms := eval vm_compute in (getitem MULTIPLIER_TABLES rows) in
          lazymatch ms with
          | Ok ?ms =>
              exists ms, tr, tp, f;
              split; [vm_compute; reflexivity|];
              split; [exact Htot|];
              split; [exact Hret|];
              split; [vm_compute; reflexivity|];
              cbv zeta;
              let H1 := fresh in
              let H2 := fresh in
              let H3 := fresh in
              let H4 := fresh in
              lazymatch goal with
              | |- (Qabs (?v - ?x) <= _)%Q /\ (Qabs (?q - _) <= _)%Q /\ _ =>
                  destruct (accurate_sound v q x) as (H1 & H2 & H3 & H4);
                    [vm_compute; reflexivity|]
              end;
              split; [exact H1|]; split; [exact H2|];
              split; [exact H3|]; split; [exact H4|];
              vm_compute; reflexivity
          end
      end
  end.

(** X9: for every supported row count the 50-digit total_rtp is within
    1e-49 of the exact rational RTP, the sum over the buckets of
    C(n, i) p^i (1 - p)^(n - i) times the multiplier, and the float
    calculate_rtp returns is within 2^-54 of it; the exact RTP lies
    strictly between 0.98 and 1, and the returned float is not above
    1.0. *)
Theorem rtp_accuracy :
  forall rows : Z,
    In rows supported_rows ->
    exists multipliers total_rtp total_prob returned,
      getitem MULTIPLIER_TABLES rows = Ok multipliers /\
      run_totals rows = Ok (total_rtp, total_prob) /\
      snd (calculate_rtp rows) = Ok returned /\
      returned = Flt.of_decimal total_rtp /\
      let exact := exact_rtp (Z.to_nat rows) (value LEFT_PROBABILITY)
                     (map value multipliers) in
      (Qabs (value total_rtp - exact) <= 1 # 10 ^ 49)%Q /\
      (Qabs (Flt.to_Q returned - exact) <= 1 # 2 ^ 54)%Q /\
      (98 # 100 < exact)%Q /\ (exact < 1)%Q /\
      Flt.fgt returned Flt.f_1_0 = false.
Proof.
  intros rows Hin. cbn [supported_rows In] in Hin.
  destruct Hin as [<-|[<-|[<-|[<-|[<-|[<-|[]]]]]]].
  - rtp_row 11 totals_11 returned_11.
  - rtp_row 12 totals_12 returned_12.
  - rtp_row 13 totals_13 returned_13.
  - rtp_row 14 totals_14 returned_14.
  - rtp_row 15 totals_15 returned_15.
  - rtp_row 16 totals_16 returned_16.
Qed.

Lemma rtp_accuracy_witness :
  exists multipliers total_rtp total_prob returned,
    getitem MULTIPLIER_TABLES 11 = Ok multipliers /\
    run_totals 11 = Ok (total_rtp, total_prob) /\
    snd (calculate_rtp 11) = Ok returned /\
    returned = Flt.of_decimal total_rtp /\
    let exact := exact_rtp (Z.to_nat 11) (value LEFT_PROBABILITY)
                   (map value multipliers) in
    (Qabs (value total_rtp - exact) <= 1 # 10 ^ 49)%Q /\
    (Qabs (Flt.to_Q returned - exact) <= 1 # 2 ^ 54)%Q /\
    (98 # 100 < exact)%Q /\ (exact < 1)%Q /\
    Flt.fgt returned Flt.f_1_0 = false.
Proof.
  apply (rtp_accuracy 11).
  cbn. lia.
Defined.

Lemma calculate_rtp_pair rows f :
  snd (calculate_rtp rows) = Ok f ->
  calculate_rtp rows = (fst (calculate_rtp rows), Ok f).
Proof. destruct (calculate_rtp rows) as [o r]. cbn. intros ->. reflexivity. Qed.

(** The six reports, one after the other. *)
Lemma reports_supported :
  reports supported_rows
  = fst (calculate_rtp 11) ++ fst (calculate_rtp 12) ++ fst (calculate_rtp 13)
    ++ fst (calculate_rtp 14) ++ fst (calculate_rtp 15)
    ++ fst (calculate_rtp 16) ++ [].
Proof. reflexivity. Qed.

(** The six summary rows, with the floats the six calls return. *)
Lemma expected_summary_supported :
  expected_summary supported_rows
  = [summary_row 11 (S754_finite false 8931553260403826 (-53));
     summary_row 12 (S754_finite false 8927595081024681 (-53));
     summary_row 13 (S754_finite false 8924956322281699 (-53));
     summary_row 14 (S754_finite false 8915170739608815 (-53));
     summary_row 15 (S754_finite false 8919513884742235 (-53));
     summary_row 16 (S754_finite false 8915005862133492 (-53))].
Proof.
  unfold expected_summary, supported_rows. cbn [flat_map].
  rewrite returned_11, returned_12, returned_13, returned_14, returned_15,
          returned_16.
  reflexivity.
Qed.

(** main(), given what the six calls print and return. *)
Lemma main_of_returned o11 o12 o13 o14 o15 o16 :
  calculate_rtp 11 = (o11, Ok (S754_finite false 8931553260403826 (-53))) ->
  calculate_rtp 12 = (o12, Ok (S754_finite false 8927595081024681 (-53))) ->
  calculate_rtp 13 = (o13, Ok (S754_finite false 8924956322281699 (-53))) ->
  calculate_rtp 14 = (o14, Ok (S754_finite false 8915170739608815 (-53))) ->
  calculate_rtp 15 = (o15, Ok (S754_finite false 8919513884742235 (-53))) ->
  calculate_rtp 16 = (o16, Ok (S754_finite false 8915005862133492 (-53))) ->
  main
  = ([MainTitle] ++ (o11 ++ o12 ++ o13 ++ o14 ++ o15 ++ o16 ++ [])
       ++ [SummaryTitle; SummaryHeader; Rule false]
       ++ [summary_row 11 (S754_finite false 8931553260403826 (-53));
           summary_row 12 (S754_finite false 8927595081024681 (-53));
           summary_row 13 (S754_finite false 8924956322281699 (-53));
           summary_row 14 (S754_finite false 8915170739608815 (-53));
           summary_row 15 (S754_finite false 8919513884742235 (-53));
           summary_row 16 (S754_finite false 8915005862133492 (-53))]
       ++ [Rule true; FindingsTitle; AllPositive; Rule true],
     Ok tt).
Proof.
  intros H11 H12 H13 H14 H15 H16.
  unfold main. cbn [evaluate_all].
  rewrite H11, H12, H13, H14, H15, H16.
  vm_compute. reflexivity.
Qed.

(** X10: main() runs to the end without an exception and prints, in this
    order: the title, the six reports of calculate_rtp for 11 .. 16, the
    summary header, one summary row per row count in ascending order
    carrying the RTP calculate_rtp returned for it, and the findings; no
    row has the status PLAYER ADVANTAGE (11, 12, 13 and 15 rows are "OK
    (Near target)", 14 and 16 rows "OK"), and the findings are the single
    line "All configurations have positive house edge". *)
Theorem main_report :
  main
  = ([MainTitle] ++ reports supported_rows
       ++ [SummaryTitle; SummaryHeader; Rule false]
       ++ expected_summary supported_rows
       ++ [Rule true; FindingsTitle; AllPositive; Rule true],
     Ok tt) /\
  map summary_key (expected_summary supported_rows) = map Some supported_rows /\
  map summary_status (expected_summary supported_rows)
  = map Some [OkNearTarget; OkNearTarget; OkNearTarget; OkStatus;
              OkNearTarget; OkStatus].
Proof.
  rewrite reports_supported, expected_summary_supported.
  split.
  - apply main_of_returned; apply calculate_rtp_pair.
    + exact returned_11.
    + exact returned_12.
    + exact returned_13.
    + exact returned_14.
    + exact returned_15.
    + exact returned_16.
  - split; vm_compute; reflexivity.
Qed.
